(** * btrfs-rollback: a shallow embedding of the rollback orchestration

    The Go program (packages [btrfs], [ui], [cmd], [config], [utils] and
    [main]) is embedded as functions of a small process monad.  Every call
    that leaves the process (an external command, a file system query, the
    terminal) is answered by an environment and recorded in a trace, so the
    theorems can speak about what the program executed, in which order, and
    with which result. *)

From Stdlib Require Import List String Ascii ZArith Bool Lia Arith.
From Stdlib Require Import Permutation Sorted.
From ExtLib Require Import Structures.Monad.
Import ListNotations.
Import MonadNotation.

Local Open Scope string_scope.
Local Open Scope list_scope.
Local Open Scope monad_scope.

(** ** Strings and errors *)

Infix "+++" := String.append (right associativity, at level 60).

(** The line feed written "\n" in the Go sources. *)
Definition LF : string := String (ascii_of_nat 10) EmptyString.

(** A Go [error] value: [None] is [nil], [Some msg] an error whose
    [Error()] text is [msg]. *)
Definition error := option string.

Definition is_err (e : error) : bool :=
  match e with Some _ => true | None => false end.

(** [strings.Join(elems, sep)]. *)
Fixpoint strings_Join (elems : list string) (sep : string) : string :=
  match elems with
  | [] => ""
  | [x] => x
  | x :: rest => x +++ sep +++ strings_Join rest sep
  end.

(** What the verb [%v] prints for a [[]string]. *)
Definition fmt_v_strings (xs : list string) : string :=
  "[" +++ strings_Join xs " " +++ "]".

(** ** Data model *)

(** [config.Config]; the pointer field [Dev] is [None] when nil. *)
Record Config := mkConfig {
  SubvolMain : string;
  SubvolSnapshots : string;
  Mountpoint : string;
  Dev : option string
}.

Definition DefaultConfig : Config :=
  {| SubvolMain := "@"; SubvolSnapshots := "@snapshots";
     Mountpoint := "/btrfs"; Dev := None |}.

(** The zero value [config.Config{}]. *)
Definition zeroConfig : Config :=
  {| SubvolMain := ""; SubvolSnapshots := ""; Mountpoint := ""; Dev := None |}.

(** [btrfs.Snapshot]. *)
Record Snapshot := mkSnapshot {
  ID : string;
  Method : string;
  Date : string;
  DescriptionStr : string
}.

(** The zero value [Snapshot{}]. *)
Definition zeroSnapshot : Snapshot :=
  {| ID := ""; Method := ""; Date := ""; DescriptionStr := "" |}.

(** What the program reads of an [os.DirEntry]. *)
Record DirEntry := mkDirEntry {
  Name : string;
  IsDir : bool
}.

(** ** Messages of the terminal UI runtime *)

Inductive Msg :=
| WindowSizeMsg (Width Height : Z)
| KeyMsg (key : string)      (* [key] is what [msg.String()] returns *)
| OtherMsg.

Inductive Cmd :=
| CmdNil
| CmdQuit       (* [tea.Quit] *)
| CmdOther.

(** ** The trace *)

(** One event per interaction with the outside, with the answer received. *)
Inductive Event :=
| EvRun (argv : list string) (err : error)
    (* [exec.Command(argv...).Run()] *)
| EvCombinedOutput (argv : list string) (output : string) (err : error)
| EvReadDir (path : string) (entries : list DirEntry) (err : error)
| EvReadFile (path : string) (data : string) (err : error)
| EvStat (path : string) (err : error)
| EvDecodeFile (path : string) (cfg : Config) (err : error)
| EvAbs (path : string) (abs : string) (err : error)
| EvGeteuid (uid : Z)
| EvStdout (text : string)
| EvStderr (text : string)
| EvLogFatal (text : string)
| EvExecute (err : error)        (* [cmd.RootCmd.Execute()] *)
| EvTea (msgs : list Msg) (err : error)   (* the messages one [p.Run()] consumed *)
| EvMakeRaw (err : error)
| EvRestore
| EvStdinRead (b : option ascii).

(** ** The environment

    Each answer may depend on everything that happened before (the trace so
    far) and on the arguments of the call. *)
Record Env := mkEnv {
  exec_Run : list Event -> list string -> error;
  exec_CombinedOutput : list Event -> list string -> string * error;
  os_ReadDir : list Event -> string -> list DirEntry * error;
  os_ReadFile : list Event -> string -> string * error;
  os_Stat : list Event -> string -> error;
  os_Geteuid : list Event -> Z;
  toml_DecodeFile : list Event -> string -> Config * error;
  filepath_Abs : list Event -> string -> string * error;
  (* the command line: what [RootCmd.Execute()] returns and the values it
     leaves in the flag variables [cfgPath] and [dryRun] of package cmd *)
  cobra_Execute : list Event -> error;
  flag_config : string;
  flag_dry_run : bool;
  (* the terminal *)
  tea_start : list Event -> error;       (* [p.Run()] failing to start *)
  tea_msgs : list Event -> list Msg;     (* the messages it delivers, in order *)
  term_MakeRaw : list Event -> error;
  stdin_Read : list Event -> option ascii  (* the byte read, if any *)
}.

(** ** The process monad *)

(** The mutable state: the trace and the package variable [btrfs.dryRun]. *)
Record State := mkState {
  trace : list Event;
  dryRun : bool
}.

Inductive Outcome (A : Type) :=
| Val (a : A)
| Exited (code : Z).   (* [os.Exit(code)] *)
Arguments Val {A} a.
Arguments Exited {A} code.

Definition Proc (A : Type) : Type := State -> Outcome A * State.

Definition retP {A} (a : A) : Proc A := fun s => (Val a, s).

Definition bindP {A B} (c : Proc A) (k : A -> Proc B) : Proc B :=
  fun s =>
    match c s with
    | (Val a, s') => k a s'
    | (Exited code, s') => (Exited code, s')
    end.

#[export] Instance Monad_Proc : Monad Proc :=
  {| ret := @retP; bind := @bindP |}.

Definition emit (e : Event) : Proc unit :=
  fun s => (Val tt, {| trace := trace s ++ [e]; dryRun := dryRun s |}).

(** Ask the environment and record the answer. *)
Definition ask {A} (q : list Event -> A) (ev : A -> Event) : Proc A :=
  fun s => let a := q (trace s) in
           (Val a, {| trace := trace s ++ [ev a]; dryRun := dryRun s |}).

Definition os_Exit {A} (code : Z) : Proc A := fun s => (Exited code, s).

(** [log.Fatal(err)]: print, then [os.Exit(1)]. *)
Definition log_Fatal {A} (msg : string) : Proc A :=
  emit (EvLogFatal msg) ;; os_Exit 1.

Definition fmt_Print (text : string) : Proc unit := emit (EvStdout text).

Definition get_dryRun : Proc bool := fun s => (Val (dryRun s), s).

(** [btrfs.SetDryRun]. *)
Definition SetDryRun (enabled : bool) : Proc unit :=
  fun s => (Val tt, {| trace := trace s; dryRun := enabled |}).

(** The exit status of a finished process. *)
Definition exit_status {A} (o : Outcome A) : Z :=
  match o with Val _ => 0 | Exited code => code end.

(** ** Go library functions the program calls

    [filepath.Join], [filepath.Dir], [xml.Unmarshal] into a [Snapshot] and
    [sort.Slice] are pure; the development is parametric in them. *)
Record GoLib := mkGoLib {
  filepath_Join : list string -> string;
  filepath_Dir : string -> string;
  xml_Unmarshal : string -> Snapshot * error;
  sort_Slice : (Snapshot -> Snapshot -> bool) -> list Snapshot -> list Snapshot
}.

(** ** strconv.Atoi

    [Some n] when [err == nil]: an optional sign, then one or more decimal
    digits, the value within the 64-bit [int] range.  [None] when
    [err != nil] (the integer returned beside the error is never read by the
    program). *)

Definition digit_of (c : ascii) : option Z :=
  let n := Z.of_N (N_of_ascii c) in
  if (48 <=? n)%Z && (n <=? 57)%Z then Some (n - 48)%Z else None.

Fixpoint parse_digits (s : string) (acc : Z) : option Z :=
  match s with
  | EmptyString => Some acc
  | String c rest =>
      match digit_of c with
      | Some d => parse_digits rest (acc * 10 + d)%Z
      | None => None
      end
  end.

Definition in_int_range (v : Z) : bool :=
  (- 2 ^ 63 <=? v)%Z && (v <=? 2 ^ 63 - 1)%Z.

Definition strconv_Atoi (s : string) : option Z :=
  match s with
  | EmptyString => None
  | String c rest =>
      let neg := Ascii.eqb c "-" in
      let body := if neg || Ascii.eqb c "+" then rest else s in
      match body with
      | EmptyString => None
      | _ =>
          match parse_digits body 0 with
          | Some n =>
              let v := if neg then (- n)%Z else n in
              if in_int_range v then Some v else None
          | None => None
          end
      end
  end.

(** The closure handed to [sort.Slice] in [GetSnapshots], on the two
    elements it compares. *)
Definition snapshot_less (a b : Snapshot) : bool :=
  match strconv_Atoi (ID a), strconv_Atoi (ID b) with
  | None, _ => false
  | Some _, None => true
  | Some idI, Some idJ => (idI >? idJ)%Z
  end.

(** ** Package btrfs *)

Section Btrfs.

Variable lib : GoLib.
Variable env : Env.

(** [exec.Command(argv...).Run()] *)
Definition cmd_Run (argv : list string) : Proc error :=
  ask (fun h => exec_Run env h argv) (EvRun argv).

(** [exec.Command(argv...).CombinedOutput()] *)
Definition cmd_CombinedOutput (argv : list string) : Proc (string * error) :=
  ask (fun h => exec_CombinedOutput env h argv)
      (fun r => EvCombinedOutput argv (fst r) (snd r)).

Definition ReadDir (path : string) : Proc (list DirEntry * error) :=
  ask (fun h => os_ReadDir env h path) (fun r => EvReadDir path (fst r) (snd r)).

Definition ReadFile (path : string) : Proc (string * error) :=
  ask (fun h => os_ReadFile env h path) (fun r => EvReadFile path (fst r) (snd r)).

Definition Stat (path : string) : Proc error :=
  ask (fun h => os_Stat env h path) (EvStat path).

Definition realIsBtrfsSubvolume (path : string) : Proc bool :=
  err <- cmd_Run ["btrfs"; "subvolume"; "show"; path] ;;
  ret (negb (is_err err)).

(** The [for _, entry := range entries] loop of [listSubvolumes];
    [subvolumes] is the slice built so far. *)
Fixpoint listSubvolumes_loop (snapshotDir : string) (entries : list DirEntry)
    (subvolumes : list string) : Proc (list string) :=
  match entries with
  | [] => ret subvolumes
  | entry :: rest =>
      let fullPath := filepath_Join lib [snapshotDir; Name entry; "snapshot"] in
      ok <- (if IsDir entry then realIsBtrfsSubvolume fullPath else ret false) ;;
      listSubvolumes_loop snapshotDir rest
        (if ok then subvolumes ++ [fullPath] else subvolumes)
  end.

Definition listSubvolumes (cfg : Config) : Proc (list string * error) :=
  let snapshotDir := filepath_Join lib [Mountpoint cfg; SubvolSnapshots cfg] in
  '(entries, err) <- ReadDir snapshotDir ;;
  match err with
  | Some e => ret ([], Some e)
  | None =>
      subvolumes <- listSubvolumes_loop snapshotDir entries [] ;;
      ret (subvolumes, None)
  end.

Definition ReadSnapshotInfo (cfg : Config) (snapshotPath : string)
    : Proc (Snapshot * error) :=
  let infoXMLPath :=
    filepath_Join lib [filepath_Dir lib snapshotPath; "info.xml"] in
  '(xmlData, err) <- ReadFile infoXMLPath ;;
  match err with
  | Some e => ret (zeroSnapshot, Some ("could not read XML file: " +++ e))
  | None =>
      let '(snapshot, err) := xml_Unmarshal lib xmlData in
      match err with
      | Some e => ret (zeroSnapshot, Some ("could not unmarshal XML: " +++ e))
      | None => ret (snapshot, None)
      end
  end.

(** The [for _, subvol := range subvolPaths] loop of [GetSnapshots], with
    its early return. *)
Fixpoint GetSnapshots_loop (cfg : Config) (subvolPaths : list string)
    (snapshots : list Snapshot) : Proc (list Snapshot * error) :=
  match subvolPaths with
  | [] => ret (snapshots, None)
  | subvol :: rest =>
      '(snapshot, err) <- ReadSnapshotInfo cfg subvol ;;
      match err with
      | Some e =>
          ret ([], Some ("could not read snapshot info for " +++ subvol
                         +++ ": " +++ e))
      | None => GetSnapshots_loop cfg rest (snapshots ++ [snapshot])
      end
  end.

Definition GetSnapshots (cfg : Config) : Proc (list Snapshot * error) :=
  '(subvolPaths, err) <- listSubvolumes cfg ;;
  match err with
  | Some e => ret ([], Some ("failed to list snapshot subvolumes: " +++ e))
  | None =>
      '(snapshots, err) <- GetSnapshots_loop cfg subvolPaths [] ;;
      match err with
      | Some e => ret ([], Some e)
      | None => ret (sort_Slice lib snapshot_less snapshots, None)
      end
  end.

(** The argument vector of the mount command of [MountSubvol]. *)
Definition mount_argv (dev mountpoint : string) : list string :=
  ["mount"; "-o"; "subvolid=5"; dev; mountpoint].

Definition device_not_specified (cfg : Config) : error :=
  Some ("device not specified, unable to mount " +++ Mountpoint cfg).

Definition MountSubvol (cfg : Config) : Proc error :=
  '(output, err) <- cmd_CombinedOutput ["mount"; "--grep"; Mountpoint cfg] ;;
  if is_err err || Nat.eqb (String.length output) 0 then
    match Dev cfg with
    | Some dev =>
        if negb (String.eqb dev "") then
          let args := mount_argv dev (Mountpoint cfg) in
          dry <- get_dryRun ;;
          (if dry
           then fmt_Print ("[dry-run] Would execute: " +++ fmt_v_strings args +++ LF)
           else ret tt) ;;
          err <- cmd_Run args ;;
          match err with
          | Some e => ret (Some ("failed to mount " +++ dev +++ ": " +++ e))
          | None => ret None
          end
        else ret (device_not_specified cfg)
    | None => ret (device_not_specified cfg)
    end
  else
    fmt_Print ("Mountpoint is already mounted." +++ LF) ;;
    ret None.

(** The paths and commands of [Rollback]. *)
Definition subvolMainPath (cfg : Config) : string :=
  filepath_Join lib [Mountpoint cfg; SubvolMain cfg].
Definition oldSubvolMainPath (cfg : Config) : string :=
  subvolMainPath cfg +++ ".old".
Definition snapshotPath (cfg : Config) (snapshotID : string) : string :=
  filepath_Join lib [Mountpoint cfg; SubvolSnapshots cfg; snapshotID; "snapshot"].

Definition delete_argv (cfg : Config) : list string :=
  ["btrfs"; "subvolume"; "delete"; oldSubvolMainPath cfg].
Definition mv_argv (cfg : Config) : list string :=
  ["mv"; subvolMainPath cfg; oldSubvolMainPath cfg].
Definition snapshot_argv (cfg : Config) (snapshotID : string) : list string :=
  ["btrfs"; "subvolume"; "snapshot"; snapshotPath cfg snapshotID; subvolMainPath cfg].
Definition set_default_argv (cfg : Config) : list string :=
  ["btrfs"; "subvolume"; "set-default"; subvolMainPath cfg].

(** The four announcements of the dry run and the closing message. *)
Definition would_delete (cfg : Config) : string :=
  "[dry-run] Would delete old subvolume: " +++ oldSubvolMainPath cfg +++ LF.
Definition would_move (cfg : Config) : string :=
  "[dry-run] Would move " +++ subvolMainPath cfg +++ " to "
    +++ oldSubvolMainPath cfg +++ LF.
Definition would_create (cfg : Config) (snapshotID : string) : string :=
  "[dry-run] Would create snapshot from " +++ snapshotPath cfg snapshotID
    +++ " to " +++ subvolMainPath cfg +++ LF.
Definition would_set_default (cfg : Config) : string :=
  "[dry-run] Would set default subvolume to: " +++ subvolMainPath cfg +++ LF.
Definition completed (snapshotID : string) : string :=
  "Rollback completed using snapshot " +++ snapshotID +++ LF.

(** The error of each failing step. *)
Definition delete_failed (e : string) : string :=
  "failed to delete old subvolume: " +++ e.
Definition move_failed (cfg : Config) (e : string) : string :=
  "failed to move " +++ subvolMainPath cfg +++ " to " +++ oldSubvolMainPath cfg
    +++ ": " +++ e.
Definition create_failed (snapshotID e : string) : string :=
  "failed to create snapshot " +++ snapshotID +++ ": " +++ e.
Definition set_default_failed (e : string) : string :=
  "failed to set default subvolume: " +++ e.

Definition Rollback (cfg : Config) (snapshotID : string) : Proc error :=
  (* Remove old subvolume if it exists *)
  statErr <- Stat (oldSubvolMainPath cfg) ;;
  r <- (if negb (is_err statErr) then
          dry <- get_dryRun ;;
          if dry : bool
          then fmt_Print (would_delete cfg) ;; ret None
          else
            fmt_Print ("Removing old subvolume: " +++ oldSubvolMainPath cfg +++ LF) ;;
            cmd_Run (delete_argv cfg)
        else ret None) ;;
  match r with
  | Some e => ret (Some (delete_failed e))
  | None =>
  (* Move the current subvolume *)
  dry <- get_dryRun ;;
  r <- (if dry : bool
        then fmt_Print (would_move cfg) ;; ret None
        else cmd_Run (mv_argv cfg)) ;;
  match r with
  | Some e => ret (Some (move_failed cfg e))
  | None =>
  (* Create the snapshot *)
  dry <- get_dryRun ;;
  r <- (if dry : bool
        then fmt_Print (would_create cfg snapshotID) ;; ret None
        else cmd_Run (snapshot_argv cfg snapshotID)) ;;
  match r with
  | Some e => ret (Some (create_failed snapshotID e))
  | None =>
  (* Set default subvolume *)
  dry <- get_dryRun ;;
  r <- (if dry : bool
        then fmt_Print (would_set_default cfg) ;; ret None
        else cmd_Run (set_default_argv cfg)) ;;
  match r with
  | Some e => ret (Some (set_default_failed e))
  | None => fmt_Print (completed snapshotID) ;; ret None
  end end end end.

End Btrfs.

(** ** Package ui *)

(** The list component of the bubbles library, as far as the program uses
    it: an opaque state with the operations called on it.  Items are given
    as the snapshots they wrap; a delegate is given by its width. *)
Record ListWidget := mkListWidget {
  ListModel : Type;
  list_New : list Snapshot -> Z -> Z -> Z -> ListModel;
  list_SetSize : Z -> Z -> ListModel -> ListModel;
  list_SetDelegate : Z -> ListModel -> ListModel;
  list_SetItems : list Snapshot -> ListModel -> ListModel;
  list_Update : Msg -> ListModel -> ListModel * Cmd;
  list_Index : ListModel -> Z
}.

(** [ui.model]; the fields carry the prefix [m_]. *)
Record model (W : ListWidget) := mkModel {
  m_width : Z;
  m_height : Z;
  m_quitting : bool;
  m_err : error;
  m_list : ListModel W;
  m_selectedID : string;
  m_snapshots : list Snapshot;
  m_delegate : Z        (* [snapshotDelegate{width}] *)
}.
Arguments mkModel {W}.
Arguments m_width {W}.
Arguments m_height {W}.
Arguments m_quitting {W}.
Arguments m_err {W}.
Arguments m_list {W}.
Arguments m_selectedID {W}.
Arguments m_snapshots {W}.
Arguments m_delegate {W}.

(** [xs[i]] for a Go [int] index; [None] is the run-time panic. *)
Definition slice_index {A} (xs : list A) (i : Z) : option A :=
  if (i <? 0)%Z then None else nth_error xs (Z.to_nat i).

(** The keys that cancel the selection. *)
Definition is_cancel_key (key : string) : bool :=
  String.eqb key "ctrl+c" || String.eqb key "esc" || String.eqb key "q".

(** [strings.ToLower(string(b))] for a one-byte slice [b]: an ASCII letter
    is lowered, another ASCII byte is kept, and a byte from 0x80 on, which is
    no valid UTF-8, becomes the replacement character U+FFFD. *)
Definition ToLower_byte (c : ascii) : string :=
  let n := N_of_ascii c in
  if (n <? 128)%N then
    if (65 <=? n)%N && (n <=? 90)%N
    then String (ascii_of_N (n + 32)) EmptyString
    else String c EmptyString
  else String (ascii_of_N 239) (String (ascii_of_N 191)
         (String (ascii_of_N 189) EmptyString)).

Section Program.

Variable lib : GoLib.
Variable W : ListWidget.
Variable env : Env.

Definition InitialModel (snapshots : list Snapshot) : model W :=
  {| m_width := 0; m_height := 0; m_quitting := false; m_err := None;
     m_list := list_New W snapshots 80 0 0;
     m_selectedID := ""; m_snapshots := snapshots; m_delegate := 80 |}.

(** The tail of [Update]: hand the message to the list. *)
Definition Update_list (m : model W) (msg : Msg) : model W * Cmd :=
  let '(l, cmd) := list_Update W msg (m_list m) in
  (mkModel (m_width m) (m_height m) (m_quitting m) (m_err m) l
           (m_selectedID m) (m_snapshots m) (m_delegate m), cmd).

(** The method [Update] of [model]; [None] is the panic of an index out of range. *)
Definition Update (m : model W) (msg : Msg) : option (model W * Cmd) :=
  match msg with
  | WindowSizeMsg w h =>
      let d := (w - 6)%Z in
      let l := list_SetSize W (w - 4)%Z (h - 4)%Z (m_list m) in
      let l := list_SetDelegate W d l in
      let l := list_SetItems W (m_snapshots m) l in
      Some (mkModel w h (m_quitting m) (m_err m) l
                    (m_selectedID m) (m_snapshots m) d, CmdNil)
  | KeyMsg key =>
      if String.eqb key "enter" then
        if Nat.ltb 0 (List.length (m_snapshots m)) then
          match slice_index (m_snapshots m) (list_Index W (m_list m)) with
          | Some s =>
              Some (mkModel (m_width m) (m_height m) (m_quitting m) (m_err m)
                            (m_list m) (ID s) (m_snapshots m) (m_delegate m),
                    CmdQuit)
          | None => None
          end
        else Some (Update_list m msg)
      else if is_cancel_key key then
        Some (mkModel (m_width m) (m_height m) true (Some "")
                      (m_list m) (m_selectedID m) (m_snapshots m) (m_delegate m),
              CmdQuit)
      else Some (Update_list m msg)
  | OtherMsg => Some (Update_list m msg)
  end.

(** The event loop of [p.Run()], one message after the other: it returns
    the model when [Update] answers [tea.Quit], and an error when [Update]
    panics or the program is killed before it quits (the messages end). *)
Fixpoint tea_loop (m : model W) (msgs consumed : list Msg)
    : (model W * error) * list Msg :=
  match msgs with
  | [] => ((m, Some "program was killed"), consumed)
  | msg :: rest =>
      match Update m msg with
      | None => ((m, Some "program experienced a panic"), consumed ++ [msg])
      | Some (m', CmdQuit) => ((m', None), consumed ++ [msg])
      | Some (m', _) => tea_loop m' rest (consumed ++ [msg])
      end
  end.

(** [tea.NewProgram(m0, tea.WithAltScreen()).Run()] *)
Definition tea_Run (m0 : model W) : Proc (model W * error) :=
  r <- ask (fun h => match tea_start env h with
                     | Some e => ((m0, Some e), [])
                     | None => tea_loop m0 (tea_msgs env h) []
                     end)
           (fun r => EvTea (snd r) (snd (fst r))) ;;
  ret (fst r).

Definition RunUI (snapshots : list Snapshot) : Proc (string * error) :=
  '(m, err) <- tea_Run (InitialModel snapshots) ;;
  match err with
  | Some e => ret ("", Some e)
  | None =>
      if is_err (m_err m) then os_Exit 1
      else ret (m_selectedID m, None)
  end.

Definition Confirm (prompt : string) : Proc bool :=
  fmt_Print (prompt +++ " [y/N]: ") ;;
  err <- ask (term_MakeRaw env) EvMakeRaw ;;
  match err with
  | Some _ =>
      fmt_Print (LF +++ "Unable to capture input." +++ LF) ;;
      ret false
  | None =>
      (* var b = make([]byte, 1); os.Stdin.Read(b) *)
      r <- ask (stdin_Read env) EvStdinRead ;;
      let b := match r with Some c => c | None => zero end in
      fmt_Print (String b EmptyString +++ LF) ;;
      let answer := String.eqb (ToLower_byte b) "y" in
      emit EvRestore ;;      (* the deferred term.Restore *)
      ret answer
  end.

Definition ClearScreen : Proc unit :=
  _ <- cmd_Run env ["clear"] ;; ret tt.

(** ** Packages config, cmd and utils *)

Definition ParseConfig (path : string) : Proc Config :=
  '(config, err) <- ask (fun h => toml_DecodeFile env h path)
                        (fun r => EvDecodeFile path (fst r) (snd r)) ;;
  if is_err err then ret DefaultConfig else ret config.

Definition loadConfig : Proc Config :=
  let cfgPath := flag_config env in
  if negb (String.eqb cfgPath "") then
    '(absPath, err) <- ask (fun h => filepath_Abs env h cfgPath)
                           (fun r => EvAbs cfgPath (fst r) (snd r)) ;;
    match err with
    | Some e =>
        emit (EvStderr ("Invalid config path: " +++ e +++ LF)) ;;
        os_Exit 1
    | None => ParseConfig absPath
    end
  else ret zeroConfig.

Definition cmd_Config : Proc Config := loadConfig.

Definition cmd_DryRun : bool := flag_dry_run env.

Definition Must (err : error) : Proc unit :=
  match err with
  | Some e => log_Fatal e
  | None => ret tt
  end.

Definition CheckIfRoot : Proc unit :=
  uid <- ask (os_Geteuid env) EvGeteuid ;;
  if negb (uid =? 0)%Z then
    fmt_Print ("This program must be run with sudo or as root." +++ LF) ;;
    os_Exit 1
  else ret tt.

(** ** Package main *)

Definition main : Proc unit :=
  err <- ask (cobra_Execute env) EvExecute ;;
  Must err ;;
  cfg <- cmd_Config ;;
  SetDryRun cmd_DryRun ;;
  CheckIfRoot ;;
  err <- MountSubvol env cfg ;;
  Must err ;;
  '(snapshots, err) <- GetSnapshots lib env cfg ;;
  Must err ;;
  '(snapshotID, err) <- RunUI snapshots ;;
  Must err ;;
  ClearScreen ;;
  proceed <-
    (if negb cmd_DryRun then
       confirmed <- Confirm ("Are you sure you want to rollback to snapshot "
                             +++ snapshotID +++ "?") ;;
       fmt_Print LF ;;
       ret confirmed
     else ret true) ;;
  if proceed : bool then
    _ <- Rollback lib env cfg snapshotID ;;
    ret tt
  else ret tt.

End Program.

(** The state a process starts in. *)
Definition init_state : State := {| trace := []; dryRun := false |}.

(** ** sort.Slice as the Go library runs it

    [sort.Slice(x, less)] calls [pdqsort_func] (file sort/zsortfunc.go of the
    Go library since 1.19) on the whole slice.  The slice is a list, an index
    a natural number (no index of these functions goes below zero), [Less]
    and [Swap] are those of [lessSwap].  Modelled here: insertion sort (all
    there is for at most 12 elements), the choice of the pivot, the partial
    insertion sort, range reversal and the two partitions.  The pattern
    breaking after an unbalanced partition, with its random numbers, and the
    heap sort that only follows it are not: a run that needs them gives
    [None]. *)
Module GoSort.
Local Open Scope nat_scope.

Section Slice.

Variable A : Type.
Variable d : A.     (* read only at indices out of range, which never occur *)
Variable less : A -> A -> bool.

Fixpoint update (data : list A) (i : nat) (x : A) : list A :=
  match data, i with
  | [], _ => []
  | _ :: rest, 0 => x :: rest
  | y :: rest, S i' => y :: update rest i' x
  end.

Definition Less (data : list A) (i j : nat) : bool :=
  less (nth i data d) (nth j data d).

Definition Swap (data : list A) (i j : nat) : list A :=
  update (update data i (nth j data d)) j (nth i data d).

(** [for j := i; j > a && data.Less(j, j-1); j-- { data.Swap(j, j-1) }] *)
Fixpoint insert_down (data : list A) (a j : nat) : list A :=
  match j with
  | 0 => data
  | S j' =>
      if (a <? j) && Less data j j'
      then insert_down (Swap data j j') a j'
      else data
  end.

(** [for i := ...; i < b; i++], with [n] the iterations left *)
Fixpoint insertionSort_loop (data : list A) (a i n : nat) : list A :=
  match n with
  | 0 => data
  | S n' => insertionSort_loop (insert_down data a i) a (S i) n'
  end.

Definition insertionSort_func (data : list A) (a b : nat) : list A :=
  insertionSort_loop data a (a + 1) (b - (a + 1)).

Inductive sortedHint := unknownHint | increasingHint | decreasingHint.

(** [order2_func]: the two indices in order, and the swap counter. *)
Definition order2_func (data : list A) (a b swaps : nat) : nat * nat * nat :=
  if Less data b a then (b, a, S swaps) else (a, b, swaps).

Definition median_func (data : list A) (a b c swaps : nat) : nat * nat :=
  let '(a, b, swaps) := order2_func data a b swaps in
  let '(b, c, swaps) := order2_func data b c swaps in
  let '(a, b, swaps) := order2_func data a b swaps in
  (b, swaps).

Definition medianAdjacent_func (data : list A) (a swaps : nat) : nat * nat :=
  median_func data (a - 1) a (a + 1) swaps.

Definition choosePivot_func (data : list A) (a b : nat) : nat * sortedHint :=
  let l := b - a in
  let i := a + l / 4 * 1 in
  let j := a + l / 4 * 2 in
  let k := a + l / 4 * 3 in
  let '(j, swaps) :=
    if 8 <=? l then
      let '(i, j, k, swaps) :=
        if 50 <=? l then
          let '(i, swaps) := medianAdjacent_func data i 0 in
          let '(j, swaps) := medianAdjacent_func data j swaps in
          let '(k, swaps) := medianAdjacent_func data k swaps in
          (i, j, k, swaps)
        else (i, j, k, 0) in
      median_func data i j k swaps
    else (j, 0) in
  match swaps with
  | 0 => (j, increasingHint)
  | 12 => (j, decreasingHint)
  | _ => (j, unknownHint)
  end.

(** [for i < j { data.Swap(i, j); i++; j-- }] *)
Fixpoint reverseRange_loop (fuel : nat) (data : list A) (i j : nat) : list A :=
  match fuel with
  | 0 => data
  | S fuel' =>
      if i <? j then reverseRange_loop fuel' (Swap data i j) (S i) (j - 1)
      else data
  end.

Definition reverseRange_func (data : list A) (a b : nat) : list A :=
  reverseRange_loop (b - a) data a (b - 1).

(** [for i < b && !data.Less(i, i-1) { i++ }] *)
Fixpoint skip_ordered (fuel : nat) (data : list A) (i b : nat) : nat :=
  match fuel with
  | 0 => i
  | S fuel' =>
      if (i <? b) && negb (Less data i (i - 1))
      then skip_ordered fuel' data (S i) b
      else i
  end.

(** [for j := ...; j >= 1; j-- { if !data.Less(j, j-1) { break }; data.Swap(j, j-1) }] *)
Fixpoint shift_left (data : list A) (j : nat) : list A :=
  match j with
  | 0 => data
  | S j' =>
      if negb (Less data j j') then data
      else shift_left (Swap data j j') j'
  end.

(** [for j := ...; j < b; j++ { if !data.Less(j, j-1) { break }; data.Swap(j, j-1) }] *)
Fixpoint shift_right (fuel : nat) (data : list A) (j b : nat) : list A :=
  match fuel with
  | 0 => data
  | S fuel' =>
      if j <? b then
        if negb (Less data j (j - 1)) then data
        else shift_right fuel' (Swap data j (j - 1)) (S j) b
      else data
  end.

(** The loop [for j := 0; j < maxSteps; j++] of
    [partialInsertionSort_func], with [steps] iterations left. *)
Fixpoint partialInsertionSort_loop (steps : nat) (data : list A) (a b i : nat)
    : list A * bool :=
  match steps with
  | 0 => (data, false)
  | S steps' =>
      let i := skip_ordered (b - i) data i b in
      if i =? b then (data, true)
      else if b - a <? 50 then (data, false)
      else
        let data := Swap data i (i - 1) in
        let data := if 2 <=? i - a then shift_left data (i - 1) else data in
        let data := if 2 <=? b - i then shift_right (b - i) data (i + 1) b else data in
        partialInsertionSort_loop steps' data a b i
  end.

Definition partialInsertionSort_func (data : list A) (a b : nat) : list A * bool :=
  partialInsertionSort_loop 5 data a b (a + 1).

(** [for i <= j && data.Less(i, a) { i++ }] *)
Fixpoint scan_less (fuel : nat) (data : list A) (a i j : nat) : nat :=
  match fuel with
  | 0 => i
  | S fuel' =>
      if (i <=? j) && Less data i a then scan_less fuel' data a (S i) j else i
  end.

(** [for i <= j && !data.Less(j, a) { j-- }] *)
Fixpoint scan_not_less (fuel : nat) (data : list A) (a i j : nat) : nat :=
  match fuel with
  | 0 => j
  | S fuel' =>
      if (i <=? j) && negb (Less data j a)
      then scan_not_less fuel' data a i (j - 1) else j
  end.

(** The second loop of [partition_func]. *)
Fixpoint partition_loop (fuel : nat) (data : list A) (a i j : nat)
    : list A * nat :=
  match fuel with
  | 0 => (data, j)
  | S fuel' =>
      let i := scan_less (S j - i) data a i j in
      let j := scan_not_less (S j - i) data a i j in
      if j <? i then (data, j)
      else partition_loop fuel' (Swap data i j) a (S i) (j - 1)
  end.

Definition partition_func (data : list A) (a b pivot : nat)
    : list A * nat * bool :=
  let data := Swap data a pivot in
  let i := a + 1 in
  let j := b - 1 in
  let i := scan_less (S j - i) data a i j in
  let j := scan_not_less (S j - i) data a i j in
  if j <? i then (Swap data j a, j, true)
  else
    let data := Swap data i j in
    let '(data, j) := partition_loop (b - a) data a (S i) (j - 1) in
    (Swap data j a, j, false).

(** [for i <= j && !data.Less(a, i) { i++ }] *)
Fixpoint scan_equal (fuel : nat) (data : list A) (a i j : nat) : nat :=
  match fuel with
  | 0 => i
  | S fuel' =>
      if (i <=? j) && negb (Less data a i) then scan_equal fuel' data a (S i) j else i
  end.

(** [for i <= j && data.Less(a, j) { j-- }] *)
Fixpoint scan_greater (fuel : nat) (data : list A) (a i j : nat) : nat :=
  match fuel with
  | 0 => j
  | S fuel' =>
      if (i <=? j) && Less data a j then scan_greater fuel' data a i (j - 1) else j
  end.

Fixpoint partitionEqual_loop (fuel : nat) (data : list A) (a i j : nat)
    : list A * nat :=
  match fuel with
  | 0 => (data, i)
  | S fuel' =>
      let i := scan_equal (S j - i) data a i j in
      let j := scan_greater (S j - i) data a i j in
      if j <? i then (data, i)
      else partitionEqual_loop fuel' (Swap data i j) a (S i) (j - 1)
  end.

Definition partitionEqual_func (data : list A) (a b pivot : nat) : list A * nat :=
  partitionEqual_loop (b - a) (Swap data a pivot) a (a + 1) (b - 1).

(** [pdqsort_func]: one unfolding per turn of its [for] loop; [fuel]
    bounds the turns and the depth of the recursion together.  A recursive
    call starts with both flags true, the next turn of the loop keeps the
    flags of this one. *)
Fixpoint pdqsort_func (fuel : nat) (data : list A) (a b : nat)
    (wasBalanced wasPartitioned : bool) : option (list A) :=
  match fuel with
  | 0 => None
  | S fuel' =>
      let length := b - a in
      if length <=? 12 then Some (insertionSort_func data a b)
      else if negb wasBalanced then None      (* breakPatterns_func *)
      else
        let '(pivot, hint) := choosePivot_func data a b in
        let '(data, pivot, hint) :=
          match hint with
          | decreasingHint =>
              (reverseRange_func data a b, (b - 1) - (pivot - a), increasingHint)
          | _ => (data, pivot, hint)
          end in
        let '(data, sorted) :=
          match hint with
          | increasingHint =>
              if wasBalanced && wasPartitioned
              then partialInsertionSort_func data a b
              else (data, false)
          | _ => (data, false)
          end in
        if sorted : bool then Some data
        else if (0 <? a) && negb (Less data (a - 1) pivot) then
          let '(data, mid) := partitionEqual_func data a b pivot in
          pdqsort_func fuel' data mid b wasBalanced wasPartitioned
        else
          let '(data, mid, alreadyPartitioned) := partition_func data a b pivot in
          let leftLen := mid - a in
          let rightLen := b - mid in
          let balanceThreshold := length / 8 in
          if leftLen <? rightLen then
            match pdqsort_func fuel' data a mid true true with
            | Some data =>
                pdqsort_func fuel' data (mid + 1) b
                  (balanceThreshold <=? leftLen) alreadyPartitioned
            | None => None
            end
          else
            match pdqsort_func fuel' data (mid + 1) b true true with
            | Some data =>
                pdqsort_func fuel' data a mid
                  (balanceThreshold <=? rightLen) alreadyPartitioned
            | None => None
            end
  end.

End Slice.

(** [sort.Slice(x, less)] *)
Definition Slice {A} (less : A -> A -> bool) (x : list A) : option (list A) :=
  match x with
  | [] => Some []
  | d :: _ => pdqsort_func A d less (S (List.length x)) x 0 (List.length x) true true
  end.

End GoSort.

(** ** Vocabulary of the statements *)

(** *** Traces *)

(** A state with more events. *)
Definition logged (s : State) (evs : list Event) : State :=
  {| trace := trace s ++ evs; dryRun := dryRun s |}.

(** The commands a trace executed with [Run], with their results, in order. *)
Fixpoint executed (evs : list Event) : list (list string * error) :=
  match evs with
  | [] => []
  | EvRun argv err :: rest => (argv, err) :: executed rest
  | _ :: rest => executed rest
  end.

(** The announcements of planned actions a trace printed: the lines that
    start with the dry-run tag. *)
Fixpoint planned_actions (evs : list Event) : list string :=
  match evs with
  | [] => []
  | EvStdout text :: rest =>
      if String.prefix "[dry-run] " text
      then text :: planned_actions rest
      else planned_actions rest
  | _ :: rest => planned_actions rest
  end.

(** The events [evs], appended to the history [h], record what the
    environment answers at that point of the history. *)
Fixpoint answered_by (env : Env) (h evs : list Event) : Prop :=
  match evs with
  | [] => True
  | e :: rest =>
      match e with
      | EvRun argv r => r = exec_Run env h argv
      | EvCombinedOutput argv out r => (out, r) = exec_CombinedOutput env h argv
      | EvReadDir path entries r => (entries, r) = os_ReadDir env h path
      | EvReadFile path data r => (data, r) = os_ReadFile env h path
      | EvStat path r => r = os_Stat env h path
      | EvMakeRaw r => r = term_MakeRaw env h
      | EvStdinRead b => b = stdin_Read env h
      | _ => True
      end /\ answered_by env (h ++ [e]) rest
  end.

(** *** The Mount Guard *)

(** The mount-table probe of [MountSubvol] and how the guard reads it. *)
Definition probe_argv (cfg : Config) : list string :=
  ["mount"; "--grep"; Mountpoint cfg].

Definition reported_unmounted (r : string * error) : bool :=
  is_err (snd r) || Nat.eqb (String.length (fst r)) 0.

(** What the mount-table probe answers when [MountSubvol] starts in [s],
    and the event that records it. *)
Definition probe_answer (env : Env) (cfg : Config) (s : State) : string * error :=
  exec_CombinedOutput env (trace s) (probe_argv cfg).

Definition probe_event (env : Env) (cfg : Config) (s : State) : Event :=
  EvCombinedOutput (probe_argv cfg) (fst (probe_answer env cfg s))
                   (snd (probe_answer env cfg s)).

(** *** The Rollback Engine *)

(** Fail-fast execution of a plan: the steps are attempted in the order of
    the plan, each after the success of the one before; the first failure
    ends the run with the error of that step. *)
Inductive fail_fast :
  list (list string * (string -> string)) -> list (list string * error) -> error -> Prop :=
| ff_done : fail_fast [] [] None
| ff_ok : forall argv wrap plan ex r,
    fail_fast plan ex r ->
    fail_fast ((argv, wrap) :: plan) ((argv, None) :: ex) r
| ff_fail : forall argv wrap plan e,
    fail_fast ((argv, wrap) :: plan) [(argv, Some e)] (Some (wrap e)).

(** The plan of a rollback that is not simulated: each command with the
    error it fails with. *)
Definition rollback_plan (lib : GoLib) (cfg : Config) (snapshotID : string)
    (old_exists : bool) : list (list string * (string -> string)) :=
  (if old_exists then [(delete_argv lib cfg, delete_failed)] else [])
  ++ [ (mv_argv lib cfg, move_failed lib cfg);
       (snapshot_argv lib cfg snapshotID, create_failed snapshotID);
       (set_default_argv lib cfg, set_default_failed) ].

(** The announcements of a simulated rollback. *)
Definition dry_run_plan (lib : GoLib) (cfg : Config) (snapshotID : string)
    (old_exists : bool) : list string :=
  (if old_exists then [would_delete lib cfg] else [])
  ++ [ would_move lib cfg; would_create lib cfg snapshotID;
       would_set_default lib cfg ].

(** The commands of [Rollback]: the three subvolume mutations and the move. *)
Definition is_rollback_command (argv : list string) : bool :=
  match argv with
  | prog :: rest =>
      if String.eqb prog "mv" then true
      else if String.eqb prog "btrfs" then
        match rest with
        | sub :: verb :: _ =>
            String.eqb sub "subvolume" &&
            (String.eqb verb "delete" || String.eqb verb "snapshot"
             || String.eqb verb "set-default")
        | _ => false
        end
      else false
  | [] => false
  end.

(** The events only [Rollback] produces: its commands, and its query for
    the stale backup. *)
Definition is_rollback_event (e : Event) : bool :=
  match e with
  | EvRun argv _ => is_rollback_command argv
  | EvStat _ _ => true
  | _ => false
  end.

(** No event of the rollback among the events. *)
Definition quiet (evs : list Event) : Prop :=
  existsb is_rollback_event evs = false.

(** *** The Snapshot Catalog *)

(** The path [listSubvolumes] probes for an entry, and the probe. *)
Definition candidate_path (lib : GoLib) (snapshotDir : string) (entry : DirEntry)
  : string :=
  filepath_Join lib [snapshotDir; Name entry; "snapshot"].

Definition show_argv (path : string) : list string :=
  ["btrfs"; "subvolume"; "show"; path].

(** The metadata record [ReadSnapshotInfo] reads for a snapshot path. *)
Definition info_path (lib : GoLib) (snapshotPath : string) : string :=
  filepath_Join lib [filepath_Dir lib snapshotPath; "info.xml"].

(** The order [GetSnapshots] is to produce: of two descriptors, the first
    may stand before the second. *)
Definition id_order (x y : Snapshot) : Prop :=
  match strconv_Atoi (ID x), strconv_Atoi (ID y) with
  | Some a, Some b => (b <= a)%Z
  | Some _, None => True
  | None, None => True
  | None, Some _ => False
  end.

Definition unparsable (x : Snapshot) : bool :=
  match strconv_Atoi (ID x) with Some _ => false | None => true end.

(** The identifiers that do not parse, in the order of the list. *)
Definition unparsable_ids (l : list Snapshot) : list string :=
  map ID (filter unparsable l).

(** What [sort.Slice] asks of its [less], and what it promises then. *)
Definition strict_weak_order {A} (less : A -> A -> bool) : Prop :=
  (forall x, less x x = false) /\
  (forall x y z, less x y = true -> less y z = true -> less x z = true) /\
  (forall x y z, less x y = false -> less y z = false -> less x z = false).

Definition sorts (sort : (Snapshot -> Snapshot -> bool) -> list Snapshot -> list Snapshot)
  : Prop :=
  forall less l,
    Permutation (sort less l) l /\
    (strict_weak_order less ->
     StronglySorted (fun x y => less y x = false) (sort less l)).

(** *** The program *)

(** The statements of [main] before the mount: the command line, the
    configuration, the dry-run flag and the privilege check. *)
Definition startup (env : Env) : Proc Config :=
  err <- ask (cobra_Execute env) EvExecute ;;
  Must err ;;
  cfg <- cmd_Config env ;;
  SetDryRun (cmd_DryRun env) ;;
  CheckIfRoot env ;;
  ret cfg.

(** The statements of [main] from the selection on, and from the mount on. *)
Definition select_and_rollback (lib : GoLib) (W : ListWidget) (env : Env)
    (cfg : Config) (snapshots : list Snapshot) : Proc unit :=
  '(snapshotID, err) <- RunUI W env snapshots ;;
  Must err ;;
  ClearScreen env ;;
  proceed <-
    (if negb (cmd_DryRun env) then
       confirmed <- Confirm env ("Are you sure you want to rollback to snapshot "
                                 +++ snapshotID +++ "?") ;;
       fmt_Print LF ;;
       ret confirmed
     else ret true) ;;
  if proceed : bool then
    _ <- Rollback lib env cfg snapshotID ;;
    ret tt
  else ret tt.

Definition after_startup (lib : GoLib) (W : ListWidget) (env : Env)
    (cfg : Config) : Proc unit :=
  err <- MountSubvol env cfg ;;
  Must err ;;
  '(snapshots, err) <- GetSnapshots lib env cfg ;;
  Must err ;;
  select_and_rollback lib W env cfg snapshots.

(** The messages of a selection that is still open after them: [Update]
    answered none of them with [tea.Quit]. *)
Fixpoint still_open (W : ListWidget) (m : model W) (msgs : list Msg)
  : option (model W) :=
  match msgs with
  | [] => Some m
  | msg :: rest =>
      match Update W m msg with
      | Some (_, CmdQuit) | None => None
      | Some (m', _) => still_open W m' rest
      end
  end.

(** The answer [Confirm] returns for what the terminal delivers. *)
Definition affirmative (raw : error) (key : option ascii) : bool :=
  match raw, key with
  | None, Some c => Ascii.eqb c "y" || Ascii.eqb c "Y"
  | _, _ => false
  end.

(** An affirmative key press among the events. *)
Definition confirmed (evs : list Event) : Prop :=
  exists c, (c = "y"%char \/ c = "Y"%char) /\ In (EvStdinRead (Some c)) evs.

(** What [Confirm] prints, asks and reads, for the answers [raw] of
    [term.MakeRaw] and [key] of the read. *)
Definition confirm_events (prompt : string) (raw : error) (key : option ascii)
  : list Event :=
  [EvStdout (prompt +++ " [y/N]: "); EvMakeRaw raw]
  ++ match raw with
     | Some _ => [EvStdout (LF +++ "Unable to capture input." +++ LF)]
     | None =>
         [EvStdinRead key;
          EvStdout (String (match key with Some c => c | None => zero end) EmptyString
                    +++ LF);
          EvRestore]
     end.

(** A process that only appends events to the trace, and events with the
    property [P]. *)
Definition appends {A} (P : list Event -> Prop) (c : Proc A) : Prop :=
  forall s, exists evs, trace (snd (c s)) = trace s ++ evs /\ P evs.

(** No event of the rollback is appended. *)
Definition silent {A} (c : Proc A) : Prop := appends quiet c.

(** Events of the rollback are appended only after an affirmative key
    press: what is appended is [pre ++ post], with no event of the rollback
    in [pre], and the key press in [pre] unless [post] is empty. *)
Definition guarded {A} (c : Proc A) : Prop :=
  forall s, exists pre post,
    trace (snd (c s)) = trace s ++ pre ++ post
    /\ quiet pre /\ (post = [] \/ confirmed pre).

(** ** Closed instances for the examples *)

(** Joins the non-empty elements with a slash, as [filepath.Join] does for
    elements that are clean already. *)
Definition ex_Join (elem : list string) : string :=
  strings_Join (filter (fun e => negb (String.eqb e "")) elem) "/".

(** The path up to its last slash, if it has one. *)
Fixpoint before_last_slash (path : string) : option string :=
  match path with
  | EmptyString => None
  | String c rest =>
      match before_last_slash rest with
      | Some p => Some (String c p)
      | None => if Ascii.eqb c "/" then Some EmptyString else None
      end
  end.

Definition ex_Dir (path : string) : string :=
  match before_last_slash path with
  | Some EmptyString => "/"
  | Some p => p
  | None => "."
  end.

(** A decoder for the examples: the record is its identifier, and an empty
    record does not decode. *)
Definition ex_Unmarshal (data : string) : Snapshot * error :=
  if String.eqb data "" then (zeroSnapshot, Some "EOF")
  else ({| ID := data; Method := "single"; Date := ""; DescriptionStr := "" |}, None).

(** Insertion sort, stable. *)
Fixpoint insert_sorted {A} (less : A -> A -> bool) (x : A) (l : list A) : list A :=
  match l with
  | [] => [x]
  | y :: rest => if less y x then y :: insert_sorted less x rest else x :: y :: rest
  end.

Fixpoint insertion_sort {A} (less : A -> A -> bool) (l : list A) : list A :=
  match l with
  | [] => []
  | x :: rest => insert_sorted less x (insertion_sort less rest)
  end.

Definition ex_lib : GoLib :=
  {| filepath_Join := ex_Join; filepath_Dir := ex_Dir;
     xml_Unmarshal := ex_Unmarshal; sort_Slice := insertion_sort |}.

(** The same with the sort of the Go library; a run outside the modelled
    part of it leaves the slice as it is. *)
Definition go_lib : GoLib :=
  {| filepath_Join := ex_Join; filepath_Dir := ex_Dir;
     xml_Unmarshal := ex_Unmarshal;
     sort_Slice := fun less l =>
       match GoSort.Slice less l with Some r => r | None => l end |}.

(** A list that only keeps a cursor: "down" and "up" move it. *)
Definition cursor_list : ListWidget :=
  {| ListModel := Z;
     list_New := fun _ _ _ _ => 0%Z;
     list_SetSize := fun _ _ l => l;
     list_SetDelegate := fun _ l => l;
     list_SetItems := fun _ l => l;
     list_Update := fun msg l =>
       match msg with
       | KeyMsg key =>
           if String.eqb key "down" then ((l + 1)%Z, CmdNil)
           else if String.eqb key "up" then (Z.max 0 (l - 1), CmdNil)
           else (l, CmdNil)
       | _ => (l, CmdNil)
       end;
     list_Index := fun l => l |}.

(** A scripted environment: its answers do not depend on the history. *)
Record Script := mkScript {
  sc_probe : string * error;                (* mount --grep *)
  sc_run : list string -> error;            (* every other command *)
  sc_entries : list DirEntry * error;
  sc_files : string -> string * error;
  sc_stat : error;
  sc_dry_run : bool;
  sc_msgs : list Msg;
  sc_raw : error;
  sc_key : option ascii
}.

(** Variations of a script. *)
Definition with_probe (p : string * error) (sc : Script) : Script :=
  mkScript p (sc_run sc) (sc_entries sc) (sc_files sc) (sc_stat sc)
           (sc_dry_run sc) (sc_msgs sc) (sc_raw sc) (sc_key sc).
Definition with_run (run : list string -> error) (sc : Script) : Script :=
  mkScript (sc_probe sc) run (sc_entries sc) (sc_files sc) (sc_stat sc)
           (sc_dry_run sc) (sc_msgs sc) (sc_raw sc) (sc_key sc).
Definition with_entries (l : list DirEntry * error) (sc : Script) : Script :=
  mkScript (sc_probe sc) (sc_run sc) l (sc_files sc) (sc_stat sc)
           (sc_dry_run sc) (sc_msgs sc) (sc_raw sc) (sc_key sc).
Definition with_files (f : string -> string * error) (sc : Script) : Script :=
  mkScript (sc_probe sc) (sc_run sc) (sc_entries sc) f (sc_stat sc)
           (sc_dry_run sc) (sc_msgs sc) (sc_raw sc) (sc_key sc).
Definition with_stat (st : error) (sc : Script) : Script :=
  mkScript (sc_probe sc) (sc_run sc) (sc_entries sc) (sc_files sc) st
           (sc_dry_run sc) (sc_msgs sc) (sc_raw sc) (sc_key sc).
Definition with_dry_run (b : bool) (sc : Script) : Script :=
  mkScript (sc_probe sc) (sc_run sc) (sc_entries sc) (sc_files sc) (sc_stat sc)
           b (sc_msgs sc) (sc_raw sc) (sc_key sc).
Definition with_msgs (msgs : list Msg) (sc : Script) : Script :=
  mkScript (sc_probe sc) (sc_run sc) (sc_entries sc) (sc_files sc) (sc_stat sc)
           (sc_dry_run sc) msgs (sc_raw sc) (sc_key sc).
Definition with_key (k : option ascii) (sc : Script) : Script :=
  mkScript (sc_probe sc) (sc_run sc) (sc_entries sc) (sc_files sc) (sc_stat sc)
           (sc_dry_run sc) (sc_msgs sc) (sc_raw sc) k.

Definition ex_cfg : Config :=
  {| SubvolMain := "@"; SubvolSnapshots := "@snapshots";
     Mountpoint := "/btrfs"; Dev := Some "/dev/sda2" |}.

Definition scripted (sc : Script) : Env :=
  {| exec_Run := fun _ argv => sc_run sc argv;
     exec_CombinedOutput := fun _ _ => sc_probe sc;
     os_ReadDir := fun _ _ => sc_entries sc;
     os_ReadFile := fun _ path => sc_files sc path;
     os_Stat := fun _ _ => sc_stat sc;
     os_Geteuid := fun _ => 0%Z;
     toml_DecodeFile := fun _ _ => (ex_cfg, None);
     filepath_Abs := fun _ path => (path, None);
     cobra_Execute := fun _ => None;
     flag_config := "/etc/btrfs-rollback.toml";
     flag_dry_run := sc_dry_run sc;
     tea_start := fun _ => None;
     tea_msgs := fun _ => sc_msgs sc;
     term_MakeRaw := fun _ => sc_raw sc;
     stdin_Read := fun _ => sc_key sc |}.

Definition all_succeed (argv : list string) : error := None.

(** A command fails when its program is [prog]. *)
Definition fails_when (prog : string) (argv : list string) : error :=
  match argv with
  | p :: _ => if String.eqb p prog then Some "exit status 1" else None
  | [] => None
  end.

(** A command fails when its last argument is [path]. *)
Definition fails_on (path : string) (argv : list string) : error :=
  if String.eqb (last argv "") path then Some "exit status 1" else None.

(** Every snapshot directory of [names] holds a record with its name as
    identifier. *)
Definition files_for (names : list string) (path : string) : string * error :=
  match find (fun n => String.eqb path ("/btrfs/@snapshots/" +++ n +++ "/info.xml"))
             names with
  | Some n => (n, None)
  | None => ("", Some "no such file or directory")
  end.

Definition ex_entries : list DirEntry :=
  [ {| Name := "7"; IsDir := true |};
    {| Name := "abc"; IsDir := true |};
    {| Name := "2"; IsDir := true |} ].

(** A system with the volume mounted, three snapshots, no stale backup and
    a user who selects the first snapshot and confirms. *)
Definition ex_script : Script :=
  {| sc_probe := ("/dev/sda2 on /btrfs type btrfs (rw)", None);
     sc_run := all_succeed;
     sc_entries := (ex_entries, None);
     sc_files := files_for ["7"; "abc"; "2"];
     sc_stat := Some "no such file or directory";
     sc_dry_run := false;
     sc_msgs := [WindowSizeMsg 80 24; KeyMsg "enter"];
     sc_raw := None;
     sc_key := Some "y"%char |}.

(** Thirteen snapshot directories in the order the directory lists them:
    twelve whose identifier is no number, then snapshot 1. *)
Definition ex_names13 : list string :=
  ["a"; "b"; "c"; "d"; "e"; "f"; "g"; "h"; "i"; "j"; "k"; "l"; "1"].

Definition ex_script13 : Script :=
  {| sc_probe := ("/dev/sda2 on /btrfs type btrfs (rw)", None);
     sc_run := all_succeed;
     sc_entries := (map (fun n => {| Name := n; IsDir := true |}) ex_names13, None);
     sc_files := files_for ex_names13;
     sc_stat := Some "no such file or directory";
     sc_dry_run := false;
     sc_msgs := [];
     sc_raw := None;
     sc_key := None |}.

(** A snapshot directory with snapshot 7, a plain file, and a directory
    that holds no subvolume. *)
Definition ex_mixed_entries : list DirEntry :=
  [ {| Name := "7"; IsDir := true |};
    {| Name := "notes.txt"; IsDir := false |};
    {| Name := "tmp"; IsDir := true |} ].

Definition ex_script_mixed : Script :=
  with_run (fails_on "/btrfs/@snapshots/tmp/snapshot")
    (with_entries (ex_mixed_entries, None) ex_script).

(** The three snapshots of [ex_script], the record of abc missing. *)
Definition ex_script_no_record : Script :=
  with_files (files_for ["7"; "2"]) ex_script.

(** The user cancels at the selection and would confirm. *)
Definition ex_script_cancel : Script :=
  with_msgs [WindowSizeMsg 80 24; KeyMsg "down"; KeyMsg "q"] ex_script.

(** The stale backup exists and the move fails. *)
Definition ex_script_mv_fails : Script :=
  with_run (fails_when "mv") (with_stat None ex_script).

(** ** Vocabulary of the further properties *)

(** No event with the mark [f] among the events. *)
Definition free_of (f : Event -> bool) (evs : list Event) : Prop :=
  existsb f evs = false.

(** A process that leaves the dry-run flag as it is and only appends events
    to the trace, with the property [P]. *)
Definition steady {A} (P : list Event -> Prop) (c : Proc A) : Prop :=
  forall s, exists evs, snd (c s) = logged s evs /\ P evs.

(** What a process appends when it starts in dry-run mode. *)
Definition simulated {A} (P : list Event -> Prop) (c : Proc A) : Prop :=
  forall s, dryRun s = true ->
    exists evs, trace (snd (c s)) = trace s ++ evs /\ P evs.

(** The error [MountSubvol] makes of a failing mount. *)
Definition mount_failed (dev e : string) : string :=
  "failed to mount " +++ dev +++ ": " +++ e.

(** The paths of the probes that succeeded, in the order of the probes: the
    last argument of each command that returned nil. *)
Definition succeeded_paths (ex : list (list string * error)) : list string :=
  flat_map (fun c => match snd c with
                     | None => [last (fst c) ""]
                     | Some _ => []
                     end) ex.

(** The subvolume probe among the commands. *)
Definition is_show_command (argv : list string) : bool :=
  match argv with
  | [a; b; c; _] =>
      String.eqb a "btrfs" && String.eqb b "subvolume" && String.eqb c "show"
  | _ => false
  end.

(** The events that are no part of a discovery: all but the listing of a
    directory, the reading of a file and the subvolume probe. *)
Definition outside_discovery (e : Event) : bool :=
  match e with
  | EvReadDir _ _ _ | EvReadFile _ _ _ => false
  | EvRun argv _ => negb (is_show_command argv)
  | _ => true
  end.

(** The record of the snapshot path, read with the content [data]. *)
Definition record_event (lib : GoLib) (pd : string * string) : Event :=
  EvReadFile (info_path lib (fst pd)) (snd pd) None.

(** The commands the program runs, probes included. *)
Definition is_command_event (e : Event) : bool :=
  match e with
  | EvRun _ _ | EvCombinedOutput _ _ _ => true
  | _ => false
  end.

(** A command of the rollback, or a question to the terminal of
    [Confirm]. *)
Definition changes_or_asks (e : Event) : bool :=
  match e with
  | EvRun argv _ => is_rollback_command argv
  | EvMakeRaw _ | EvStdinRead _ => true
  | _ => false
  end.

(** The snapshot directory cannot be listed. *)
Definition ex_script_unlisted : Script :=
  with_entries ([], Some "no such file or directory") ex_script.

(** The events of the startup: the command line, the configuration and the
    privilege check, with what they print. *)
Definition is_startup_event (e : Event) : bool :=
  match e with
  | EvExecute _ | EvLogFatal _ | EvAbs _ _ _ | EvStderr _ | EvDecodeFile _ _ _
  | EvGeteuid _ | EvStdout _ => true
  | _ => false
  end.

(** A fatal log line. *)
Definition is_fatal (e : Event) : bool :=
  match e with EvLogFatal _ => true | _ => false end.

(** The command line was accepted and the process runs as root. *)
Definition passed_root_check (evs : list Event) : Prop :=
  In (EvExecute None) evs /\ In (EvGeteuid 0) evs.

(** What a process appends is [pre ++ post], with no event marked [f] in
    [pre], and [K] true of [pre] unless [post] is empty. *)
Definition gated {A} (f : Event -> bool) (K : list Event -> Prop) (c : Proc A)
  : Prop :=
  forall s, exists pre post,
    trace (snd (c s)) = trace s ++ pre ++ post
    /\ free_of f pre /\ (post = [] \/ K pre).

(** The statements of [main] after the selection. *)
Definition confirm_and_rollback (lib : GoLib) (env : Env) (cfg : Config)
    (snapshotID : string) : Proc unit :=
  ClearScreen env ;;
  proceed <-
    (if negb (cmd_DryRun env) then
       confirmed <- Confirm env ("Are you sure you want to rollback to snapshot "
                                 +++ snapshotID +++ "?") ;;
       fmt_Print LF ;;
       ret confirmed
     else ret true) ;;
  if proceed : bool then
    _ <- Rollback lib env cfg snapshotID ;;
    ret tt
  else ret tt.

(** A process that never exits: it returns a value from every state. *)
Definition never_exits {A} (c : Proc A) : Prop :=
  forall s, exists a, fst (c s) = Val a.

(** The system of [ex_script] with the volume not mounted and no
    configuration file to decode. *)
Definition ex_env_no_config : Env :=
  let env := scripted (with_probe ("", None) ex_script) in
  mkEnv (exec_Run env) (exec_CombinedOutput env) (os_ReadDir env) (os_ReadFile env)
        (os_Stat env) (os_Geteuid env)
        (fun _ _ => (zeroConfig,
                     Some "open /etc/btrfs-rollback.toml: no such file or directory"))
        (filepath_Abs env) (cobra_Execute env) (flag_config env) (flag_dry_run env)
        (tea_start env) (tea_msgs env) (term_MakeRaw env) (stdin_Read env).

(** * Theorems *)

(** ** General facts *)

Lemma logged_nil (s : State) : logged s [] = s.
Proof.
  destruct s; unfold logged; simpl. now rewrite app_nil_r.
Qed.

(** Unfolds the monad of one function body. *)
Ltac run_step :=
  cbn [bind ret Monad_Proc bindP retP ask emit fmt_Print get_dryRun os_Exit
       log_Fatal cmd_Run cmd_CombinedOutput ReadDir ReadFile Stat
       trace dryRun fst snd].

Ltac run_proc := run_step; unfold bindP, retP; run_step.

Tactic Notation "run_proc" "in" hyp(H) :=
  cbn [bind ret Monad_Proc bindP retP ask emit fmt_Print get_dryRun os_Exit
       log_Fatal cmd_Run cmd_CombinedOutput ReadDir ReadFile Stat
       trace dryRun fst snd] in H;
  unfold bindP, retP in H;
  cbn [bind ret Monad_Proc bindP retP ask emit fmt_Print get_dryRun os_Exit
       log_Fatal cmd_Run cmd_CombinedOutput ReadDir ReadFile Stat
       trace dryRun fst snd] in H.

(** ** The Mount Guard *)

Section MountGuard.

Variable env : Env.
Variable cfg : Config.
Variable s : State.

Lemma MountSubvol_unmounted_no_device :
  reported_unmounted (probe_answer env cfg s) = true ->
  Dev cfg = None \/ Dev cfg = Some "" ->
  MountSubvol env cfg s
  = (Val (device_not_specified cfg), logged s [probe_event env cfg s]).
Proof.
  intros Hun Hdev. unfold MountSubvol. run_proc.
  fold (probe_argv cfg). fold (probe_answer env cfg s).
  unfold reported_unmounted in Hun. unfold probe_event.
  destruct (probe_answer env cfg s) as [output err] eqn:E.
  simpl in Hun |- *. rewrite Hun.
  destruct Hdev as [-> | ->]; reflexivity.
Qed.

(** With a device, an unmounted mountpoint is mounted, whatever the
    dry-run flag says; the flag only adds the announcement. *)
Lemma MountSubvol_unmounted_device (dev : string) :
  reported_unmounted (probe_answer env cfg s) = true ->
  Dev cfg = Some dev -> dev <> "" ->
  let announced :=
    if dryRun s
    then [EvStdout ("[dry-run] Would execute: "
                    +++ fmt_v_strings (mount_argv dev (Mountpoint cfg)) +++ LF)]
    else [] in
  let r := exec_Run env (trace s ++ probe_event env cfg s :: announced)
                    (mount_argv dev (Mountpoint cfg)) in
  MountSubvol env cfg s =
    (Val (option_map (fun e => "failed to mount " +++ dev +++ ": " +++ e) r),
     logged s (probe_event env cfg s :: announced
               ++ [EvRun (mount_argv dev (Mountpoint cfg)) r])).
Proof.
  intros Hun Hdev Hne. unfold MountSubvol. run_proc.
  fold (probe_argv cfg). fold (probe_answer env cfg s).
  unfold reported_unmounted in Hun. unfold probe_event.
  destruct (probe_answer env cfg s) as [output err] eqn:E.
  simpl in Hun |- *. rewrite Hun.
  rewrite Hdev.
  destruct (String.eqb_spec dev "") as [->|_]; [congruence|]. simpl.
  run_proc. unfold logged.
  destruct (dryRun s) eqn:Hdry; run_proc; rewrite <- !app_assoc; simpl;
    match goal with
    | |- context [exec_Run env ?h ?a] => destruct (exec_Run env h a)
    end; reflexivity.
Qed.

End MountGuard.

(** *** The claims on the Mount Guard *)

Lemma probe_event_answered (env : Env) (cfg : Config) (s : State) :
  answered_by env (trace s) [probe_event env cfg s].
Proof.
  cbn. unfold probe_event, probe_answer.
  destruct (exec_CombinedOutput env (trace s) (probe_argv cfg)). cbn. auto.
Qed.

(** C1, what the code does.  In dry-run mode, with a device configured and
    the mountpoint reported as not mounted, [MountSubvol] announces the
    mount command and then executes it all the same; it returns nil exactly
    when that command succeeds. *)
Theorem MountSubvol_dry_run_still_mounts (env : Env) (cfg : Config)
    (h : list Event) (dev : string) :
  let s := {| trace := h; dryRun := true |} in
  reported_unmounted (probe_answer env cfg s) = true ->
  Dev cfg = Some dev -> dev <> "" ->
  exists r evs,
    MountSubvol env cfg s
    = (Val (option_map (fun e => "failed to mount " +++ dev +++ ": " +++ e) r),
       logged s evs)
    /\ answered_by env h evs
    /\ planned_actions evs
       = ["[dry-run] Would execute: "
          +++ fmt_v_strings (mount_argv dev (Mountpoint cfg)) +++ LF]
    /\ executed evs = [(mount_argv dev (Mountpoint cfg), r)].
Proof.
  intros s Hun Hdev Hne.
  pose proof (MountSubvol_unmounted_device env cfg s dev Hun Hdev Hne) as H.
  cbv zeta in H. cbn [dryRun s] in H.
  eexists. eexists. split; [exact H|].
  split; [|split; reflexivity].
  pose proof (probe_event_answered env cfg s) as Hp. cbn in Hp.
  destruct Hp as (Hp & _).
  cbn [answered_by app]. rewrite <- !app_assoc. cbn [app trace s].
  repeat split; auto.
Qed.

(** The failing input of C1: no mount yet, device /dev/sda2, dry run. *)
Lemma MountSubvol_dry_run_still_mounts_witness :
  let env := scripted (with_probe ("", None) ex_script) in
  let s := {| trace := []; dryRun := true |} in
  exists r evs,
    MountSubvol env ex_cfg s
    = (Val (option_map (fun e => "failed to mount " +++ "/dev/sda2" +++ ": " +++ e) r),
       logged s evs)
    /\ answered_by env [] evs
    /\ planned_actions evs
       = ["[dry-run] Would execute: "
          +++ fmt_v_strings (mount_argv "/dev/sda2" "/btrfs") +++ LF]
    /\ executed evs = [(mount_argv "/dev/sda2" "/btrfs", r)].
Proof.
  exact (MountSubvol_dry_run_still_mounts
           (scripted (with_probe ("", None) ex_script)) ex_cfg [] "/dev/sda2"
           eq_refl eq_refl ltac:(discriminate)).
Defined.

(** The same at the level of the program: a dry run of the whole program on
    a system where the volume is not mounted runs the mount. *)
Example main_dry_run_mounts :
  let env := scripted (with_dry_run true (with_probe ("", None) ex_script)) in
  In (EvRun (mount_argv "/dev/sda2" "/btrfs") None)
     (trace (snd (main ex_lib cursor_list env init_state)))
  /\ executed (trace (snd (Rollback ex_lib env ex_cfg "7"
                            {| trace := []; dryRun := true |}))) = [].
Proof. split; [cbn; tauto | reflexivity]. Qed.

(** C8.  When the mountpoint is reported as not mounted and the device is
    absent or empty, [MountSubvol] fails with the error "device not
    specified, unable to mount <mountpoint>"; the probe is all it ran. *)
Theorem MountSubvol_device_not_specified (env : Env) (cfg : Config) (s : State) :
  reported_unmounted (probe_answer env cfg s) = true ->
  Dev cfg = None \/ Dev cfg = Some "" ->
  exists evs,
    MountSubvol env cfg s
    = (Val (Some ("device not specified, unable to mount " +++ Mountpoint cfg)),
       logged s evs)
    /\ evs = [probe_event env cfg s]
    /\ answered_by env (trace s) evs
    /\ executed evs = [].
Proof.
  intros Hun Hdev. exists [probe_event env cfg s].
  split; [now apply MountSubvol_unmounted_no_device|].
  split; [reflexivity|]. split; [apply probe_event_answered | reflexivity].
Qed.

Lemma MountSubvol_device_not_specified_witness :
  let env := scripted (with_probe ("", None) ex_script) in
  exists evs,
    MountSubvol env DefaultConfig init_state
    = (Val (Some ("device not specified, unable to mount " +++ "/btrfs")),
       logged init_state evs)
    /\ evs = [probe_event env DefaultConfig init_state]
    /\ answered_by env [] evs
    /\ executed evs = [].
Proof.
  exact (MountSubvol_device_not_specified
           (scripted (with_probe ("", None) ex_script)) DefaultConfig init_state
           eq_refl (or_introl eq_refl)).
Defined.

(** C9, as the code has it.  A failing probe is read as "not mounted" and is
    not reported: with a device, [MountSubvol] runs the mount command and
    returns nil exactly when that command succeeds; without one it fails
    with "device not specified". *)
Theorem MountSubvol_probe_failure (env : Env) (cfg : Config) (s : State)
    (e : string) :
  snd (probe_answer env cfg s) = Some e ->
  (forall dev, Dev cfg = Some dev -> dev <> "" ->
     exists r evs,
       MountSubvol env cfg s
       = (Val (option_map (fun e' => "failed to mount " +++ dev +++ ": " +++ e') r),
          logged s evs)
       /\ answered_by env (trace s) evs
       /\ executed evs = [(mount_argv dev (Mountpoint cfg), r)])
  /\ (Dev cfg = None \/ Dev cfg = Some "" ->
      MountSubvol env cfg s
      = (Val (device_not_specified cfg), logged s [probe_event env cfg s])).
Proof.
  intros Hfail.
  assert (Hun : reported_unmounted (probe_answer env cfg s) = true).
  { unfold reported_unmounted. now rewrite Hfail. }
  split.
  - intros dev Hdev Hne.
    pose proof (MountSubvol_unmounted_device env cfg s dev Hun Hdev Hne) as H.
    cbv zeta in H. eexists. eexists. split; [exact H|].
    pose proof (probe_event_answered env cfg s) as Hp. cbn in Hp.
    destruct Hp as (Hp & _).
    destruct (dryRun s); cbn [answered_by app executed];
      rewrite <- ?app_assoc; cbn [app]; repeat split; auto.
  - intros Hdev. now apply MountSubvol_unmounted_no_device.
Qed.

Lemma MountSubvol_probe_failure_witness :
  let env := scripted (with_probe ("", Some "exit status 1") ex_script) in
  (exists r evs,
     MountSubvol env ex_cfg init_state
     = (Val (option_map (fun e' => "failed to mount " +++ "/dev/sda2" +++ ": " +++ e') r),
        logged init_state evs)
     /\ answered_by env [] evs
     /\ executed evs = [(mount_argv "/dev/sda2" "/btrfs", r)])
  /\ MountSubvol env DefaultConfig init_state
     = (Val (device_not_specified DefaultConfig),
        logged init_state [probe_event env DefaultConfig init_state]).
Proof.
  split.
  - exact (proj1 (MountSubvol_probe_failure
                    (scripted (with_probe ("", Some "exit status 1") ex_script))
                    ex_cfg init_state "exit status 1" eq_refl)
                 "/dev/sda2" eq_refl ltac:(discriminate)).
  - exact (proj2 (MountSubvol_probe_failure
                    (scripted (with_probe ("", Some "exit status 1") ex_script))
                    DefaultConfig init_state "exit status 1" eq_refl)
                 (or_introl eq_refl)).
Defined.

(** C9 as stated fails: the probe errors, the device is configured and the
    mount succeeds; [MountSubvol] returns nil. *)
Lemma MountSubvol_probe_failure_not_reported :
  let env := scripted (with_probe ("", Some "exit status 1") ex_script) in
  snd (probe_answer env ex_cfg init_state) = Some "exit status 1"
  /\ fst (MountSubvol env ex_cfg init_state) = Val None.
Proof. split; reflexivity. Qed.

(** ** The Rollback Engine *)

(** C4.  A simulated rollback executes no command at all and returns nil.
    It queries the file system for the stale backup, then prints the
    announcements of its plan in the fixed order delete-old (only when the
    stale backup exists), move-current, create-snapshot, set-default: four
    lines, or three without a stale backup. *)
Theorem Rollback_dry_run (lib : GoLib) (env : Env) (cfg : Config)
    (snapshotID : string) (h : list Event) :
  let st := os_Stat env h (oldSubvolMainPath lib cfg) in
  let old_exists := negb (is_err st) in
  let plan := dry_run_plan lib cfg snapshotID old_exists in
  let evs := EvStat (oldSubvolMainPath lib cfg) st
             :: map EvStdout (plan ++ [completed snapshotID]) in
  Rollback lib env cfg snapshotID {| trace := h; dryRun := true |}
  = (Val None, {| trace := h ++ evs; dryRun := true |})
  /\ executed evs = []
  /\ planned_actions evs = plan
  /\ List.length plan = (if old_exists then 4 else 3)
  /\ answered_by env h evs.
Proof.
  cbv zeta. unfold Rollback, dry_run_plan. run_proc.
  destruct (os_Stat env h (oldSubvolMainPath lib cfg)) as [e|] eqn:Est;
    cbn [is_err negb]; run_proc; rewrite <- ?app_assoc; cbn [app map];
    (split; [reflexivity|]); (split; [reflexivity|]);
    (split; [|split; [reflexivity|]]).
  - reflexivity.
  - cbn [answered_by]. rewrite Est. repeat split.
  - reflexivity.
  - cbn [answered_by]. rewrite Est. repeat split.
Qed.

(** C5.  A rollback that is not simulated runs its plan fail-fast: the
    commands are executed in the order of the plan, each after the success
    of the one before, and the first failure ends the run with the error of
    that step.  When the move fails, nothing but the deletion of the stale
    backup (if there was one) has happened before it, and neither the
    snapshot nor the default subvolume is attempted. *)
Theorem Rollback_fail_fast (lib : GoLib) (env : Env) (cfg : Config)
    (snapshotID : string) (h : list Event) :
  let s := {| trace := h; dryRun := false |} in
  let old_exists := negb (is_err (os_Stat env h (oldSubvolMainPath lib cfg))) in
  exists r evs,
    Rollback lib env cfg snapshotID s = (Val r, logged s evs)
    /\ answered_by env h evs
    /\ fail_fast (rollback_plan lib cfg snapshotID old_exists) (executed evs) r
    /\ (forall e, In (mv_argv lib cfg, Some e) (executed evs) ->
          r = Some (move_failed lib cfg e)
          /\ executed evs
             = (if old_exists then [(delete_argv lib cfg, None)] else [])
               ++ [(mv_argv lib cfg, Some e)]).
Proof.
  cbv zeta. unfold Rollback, rollback_plan, logged. run_proc.
  destruct (os_Stat env h (oldSubvolMainPath lib cfg)) as [e0|] eqn:Est;
    cbn [is_err negb]; run_proc; rewrite <- ?app_assoc; cbn [app];
    repeat
      match goal with
      | |- context [match exec_Run env ?hh ?a with _ => _ end] =>
          let E := fresh "Erun" in
          destruct (exec_Run env hh a) eqn:E; run_proc;
          rewrite <- ?app_assoc; cbn [app]
      end;
    eexists; eexists; (split; [reflexivity|]);
    (split; [cbn [answered_by]; rewrite <- ?app_assoc; cbn [app];
             rewrite ?Est; repeat split; congruence|]);
    (split; [cbn [executed app]; repeat constructor|]);
    cbn [executed app In]; intros e Hin;
    repeat match goal with
           | H : _ \/ _ |- _ => destruct H
           | H : False |- _ => destruct H
           | H : (_, _) = (_, _) |- _ => inversion H; clear H; subst
           end;
    try discriminate; (split; reflexivity).
Qed.

(** The stale backup exists and the move fails: the deletion is all that
    happened. *)
Example Rollback_move_fails :
  Rollback ex_lib (scripted ex_script_mv_fails) ex_cfg "7" init_state
  = (Val (Some "failed to move /btrfs/@ to /btrfs/@.old: exit status 1"),
     logged init_state
       [ EvStat "/btrfs/@.old" None;
         EvStdout ("Removing old subvolume: /btrfs/@.old" +++ LF);
         EvRun ["btrfs"; "subvolume"; "delete"; "/btrfs/@.old"] None;
         EvRun ["mv"; "/btrfs/@"; "/btrfs/@.old"] (Some "exit status 1") ]).
Proof. reflexivity. Qed.

(** A dry run with a stale backup: four announcements. *)
Example Rollback_dry_run_four :
  planned_actions
    (trace (snd (Rollback ex_lib (scripted (with_stat None ex_script)) ex_cfg "7"
                   {| trace := []; dryRun := true |})))
  = [ "[dry-run] Would delete old subvolume: /btrfs/@.old" +++ LF;
      "[dry-run] Would move /btrfs/@ to /btrfs/@.old" +++ LF;
      "[dry-run] Would create snapshot from /btrfs/@snapshots/7/snapshot to /btrfs/@"
        +++ LF;
      "[dry-run] Would set default subvolume to: /btrfs/@" +++ LF ].
Proof. reflexivity. Qed.

(** ** The Snapshot Catalog *)

Section Catalog.

Variable lib : GoLib.
Variable env : Env.

(** The loop of [listSubvolumes] probes the directories among the entries,
    one after the other, and keeps the paths whose probe succeeded. *)
Lemma listSubvolumes_loop_spec (dir : string) (entries : list DirEntry) :
  forall (acc : list string) (s : State),
  exists kept evs,
    listSubvolumes_loop lib env dir entries acc s = (Val (acc ++ kept), logged s evs)
    /\ answered_by env (trace s) evs
    /\ (forall p, In p kept <->
          exists entry, In entry entries /\ IsDir entry = true
                        /\ p = candidate_path lib dir entry
                        /\ In (EvRun (show_argv p) None) evs)
    /\ (forall e, In e evs ->
          exists entry r, In entry entries /\ IsDir entry = true
                          /\ e = EvRun (show_argv (candidate_path lib dir entry)) r).
Proof.
  induction entries as [|entry rest IH]; intros acc s.
  - exists [], []. cbn [listSubvolumes_loop]. run_proc.
    rewrite app_nil_r, logged_nil. repeat split; try easy.
    + intros (entry & [] & _).
  - cbn [listSubvolumes_loop]. fold (candidate_path lib dir entry).
    destruct (IsDir entry) eqn:Hdir.
    + unfold realIsBtrfsSubvolume. run_proc.
      fold (show_argv (candidate_path lib dir entry)).
      set (p0 := candidate_path lib dir entry).
      set (r := exec_Run env (trace s) (show_argv p0)).
      set (s1 := {| trace := trace s ++ [EvRun (show_argv p0) r]; dryRun := dryRun s |}).
      destruct (IH (if negb (is_err r) then acc ++ [p0] else acc) s1)
        as (kept & evs & Hrun & Hans & Hkept & Hevs).
      exists ((if negb (is_err r) then [p0] else []) ++ kept),
             (EvRun (show_argv p0) r :: evs).
      split; [|split; [|split]].
      * rewrite Hrun. unfold logged, s1. cbn [trace dryRun].
        rewrite <- app_assoc. cbn [app].
        destruct (negb (is_err r)); rewrite <- ?app_assoc; reflexivity.
      * cbn [answered_by]. split; [reflexivity | exact Hans].
      * intros p. split.
        -- intros Hin. apply in_app_or in Hin. destruct Hin as [Hin | Hin].
           ++ destruct r as [e|] eqn:Er; cbn in Hin; [easy|].
              destruct Hin as [<- | []].
              exists entry. repeat split; auto.
              ** now left.
              ** now left.
           ++ apply Hkept in Hin. destruct Hin as (en & Hen & Hd & Hp & Hev).
              exists en. repeat split; auto.
              ** now right.
              ** now right.
        -- intros (en & Hen & Hd & Hp & Hev). apply in_or_app.
           destruct Hev as [Hev | Hev].
           ++ injection Hev as Hp0 Hr.
              left. rewrite Hr. cbn. left. exact Hp0.
           ++ right. destruct (Hevs _ Hev) as (en' & r' & Hen' & Hd' & He').
              injection He' as Hp' _.
              apply Hkept. exists en'. repeat split; auto.
      * intros e [<- | Hin].
        -- exists entry, r. repeat split; auto. now left.
        -- destruct (Hevs _ Hin) as (en' & r' & Hen' & Hd' & He').
           exists en', r'. repeat split; auto. now right.
    + run_proc.
      destruct (IH acc s) as (kept & evs & Hrun & Hans & Hkept & Hevs).
      exists kept, evs. split; [exact Hrun|]. split; [exact Hans|]. split.
      * intros p. split.
        -- intros Hin. apply Hkept in Hin.
           destruct Hin as (en & Hen & Hd & Hp & Hev).
           exists en. repeat split; auto. now right.
        -- intros (en & [<- | Hen] & Hd & Hp & Hev); [congruence|].
           apply Hkept. exists en. repeat split; auto.
      * intros e Hin. destruct (Hevs _ Hin) as (en' & r' & Hen' & Hd' & He').
        exists en', r'. repeat split; auto. now right.
Qed.

End Catalog.

(** The loop of [listSubvolumes] runs one probe for each directory among the
    entries, in their order, and nothing else; the paths it adds are those
    of the probes that succeeded. *)
Lemma listSubvolumes_loop_probes (lib : GoLib) (env : Env) (dir : string)
    (entries : list DirEntry) :
  forall (acc : list string) (s : State),
  exists evs,
    listSubvolumes_loop lib env dir entries acc s
    = (Val (acc ++ succeeded_paths (executed evs)), logged s evs)
    /\ map fst (executed evs)
       = map (fun entry => show_argv (candidate_path lib dir entry))
             (filter IsDir entries)
    /\ List.length (executed evs) = List.length evs
    /\ answered_by env (trace s) evs.
Proof.
  induction entries as [|entry rest IH]; intros acc s.
  - exists []. cbn [listSubvolumes_loop]. run_proc.
    cbn. rewrite app_nil_r, logged_nil. auto.
  - cbn [listSubvolumes_loop filter]. fold (candidate_path lib dir entry).
    destruct (IsDir entry) eqn:Hdir.
    + unfold realIsBtrfsSubvolume. run_proc.
      fold (show_argv (candidate_path lib dir entry)).
      set (p0 := candidate_path lib dir entry).
      set (r := exec_Run env (trace s) (show_argv p0)).
      set (s1 := {| trace := trace s ++ [EvRun (show_argv p0) r]; dryRun := dryRun s |}).
      destruct (IH (if negb (is_err r) then acc ++ [p0] else acc) s1)
        as (evs & Hrun & Hmap & Hlen & Hans).
      exists (EvRun (show_argv p0) r :: evs).
      split; [|split; [|split]].
      * rewrite Hrun. unfold logged, s1. cbn [trace dryRun executed].
        rewrite <- app_assoc. cbn [app].
        destruct r; cbn [is_err negb succeeded_paths flat_map snd fst last show_argv app];
          rewrite <- ?app_assoc; reflexivity.
      * cbn [executed map fst]. now rewrite Hmap.
      * cbn [executed List.length]. now rewrite Hlen.
      * cbn [answered_by]. split; [reflexivity | exact Hans].
    + run_proc. apply IH.
Qed.

Lemma executed_In (argv : list string) (r : error) (evs : list Event) :
  In (argv, r) (executed evs) -> In (EvRun argv r) evs.
Proof.
  induction evs as [|e evs IH]; cbn [executed In]; [easy|].
  destruct e; cbn [executed In]; intros H; try (right; apply IH; exact H).
  destruct H as [H|H]; [injection H as -> ->; now left | right; auto].
Qed.

(** C7.  When the snapshot directory can be listed, [listSubvolumes]
    returns no error.  It probes every entry that is a directory, once and
    in the order of the listing, with [btrfs subvolume show] on
    [<entry>/snapshot], and it probes nothing else.  Its candidates are
    exactly the paths of the entries that are directories and whose probe
    succeeded, in the order of the probes.  An entry that is no directory,
    and one whose probe fails, is left out without an error; the names of
    the entries play no part. *)
Theorem listSubvolumes_exact (lib : GoLib) (env : Env) (cfg : Config) (s : State)
    (entries : list DirEntry) :
  let dir := filepath_Join lib [Mountpoint cfg; SubvolSnapshots cfg] in
  os_ReadDir env (trace s) dir = (entries, None) ->
  exists subvolumes evs,
    listSubvolumes lib env cfg s
    = (Val (subvolumes, None), logged s (EvReadDir dir entries None :: evs))
    /\ answered_by env (trace s) (EvReadDir dir entries None :: evs)
    /\ (forall p, In p subvolumes <->
          exists entry, In entry entries /\ IsDir entry = true
                        /\ p = candidate_path lib dir entry
                        /\ In (EvRun (show_argv p) None) evs)
    /\ (forall e, In e evs ->
          exists entry r, In entry entries /\ IsDir entry = true
                          /\ e = EvRun (show_argv (candidate_path lib dir entry)) r)
    /\ (forall entry, In entry entries -> IsDir entry = true ->
          exists r, In (EvRun (show_argv (candidate_path lib dir entry)) r) evs)
    /\ map fst (executed evs)
       = map (fun entry => show_argv (candidate_path lib dir entry))
             (filter IsDir entries)
    /\ List.length (executed evs) = List.length evs
    /\ subvolumes = succeeded_paths (executed evs).
Proof.
  intros dir Hdir. unfold listSubvolumes. run_proc. fold dir. rewrite Hdir.
  cbn [fst snd]. run_proc.
  set (s1 := {| trace := trace s ++ [EvReadDir dir entries None]; dryRun := dryRun s |}).
  destruct (listSubvolumes_loop_spec lib env dir entries [] s1)
    as (kept & evs & Hrun & Hans & Hkept & Hevs).
  destruct (listSubvolumes_loop_probes lib env dir entries [] s1)
    as (evs' & Hrun' & Hmap & Hlen & _).
  rewrite Hrun in Hrun'.
  assert (Hsame : evs' = evs).
  { pose proof (f_equal (fun x => trace (snd x)) Hrun') as Ht.
    cbn [snd logged trace] in Ht. apply app_inv_head in Ht. congruence. }
  assert (Hres : kept = succeeded_paths (executed evs)).
  { pose proof (f_equal fst Hrun') as Hv. cbn [fst app] in Hv.
    injection Hv as Hv. now rewrite Hv, Hsame. }
  subst evs'.
  exists kept, evs. rewrite Hrun. cbn [app].
  split; [|split; [|split; [|split; [|split; [|split; [|split]]]]]]; auto.
  - unfold logged, s1. cbn [trace dryRun]. rewrite <- app_assoc. reflexivity.
  - cbn [answered_by]. split; [now rewrite Hdir | exact Hans].
  - intros entry Hin Hd.
    assert (Hf : In (show_argv (candidate_path lib dir entry)) (map fst (executed evs))).
    { rewrite Hmap. apply (in_map (fun en => show_argv (candidate_path lib dir en))).
      apply filter_In. auto. }
    apply in_map_iff in Hf. destruct Hf as ([argv r] & Ha & Hex).
    cbn [fst] in Ha. subst argv. exists r. now apply executed_In.
Qed.

Lemma listSubvolumes_exact_witness :
  let env := scripted ex_script_mixed in
  let dir := "/btrfs/@snapshots" in
  exists subvolumes evs,
    listSubvolumes ex_lib env ex_cfg init_state
    = (Val (subvolumes, None),
       logged init_state (EvReadDir dir ex_mixed_entries None :: evs))
    /\ answered_by env [] (EvReadDir dir ex_mixed_entries None :: evs)
    /\ (forall p, In p subvolumes <->
          exists entry, In entry ex_mixed_entries /\ IsDir entry = true
                        /\ p = candidate_path ex_lib dir entry
                        /\ In (EvRun (show_argv p) None) evs)
    /\ (forall e, In e evs ->
          exists entry r, In entry ex_mixed_entries /\ IsDir entry = true
                          /\ e = EvRun (show_argv (candidate_path ex_lib dir entry)) r)
    /\ (forall entry, In entry ex_mixed_entries -> IsDir entry = true ->
          exists r, In (EvRun (show_argv (candidate_path ex_lib dir entry)) r) evs)
    /\ map fst (executed evs)
       = map (fun entry => show_argv (candidate_path ex_lib dir entry))
             (filter IsDir ex_mixed_entries)
    /\ List.length (executed evs) = List.length evs
    /\ subvolumes = succeeded_paths (executed evs).
Proof.
  exact (listSubvolumes_exact ex_lib (scripted ex_script_mixed) ex_cfg init_state
           ex_mixed_entries eq_refl).
Defined.

(** On that directory the candidates are the one snapshot. *)
Example listSubvolumes_mixed :
  fst (listSubvolumes ex_lib (scripted ex_script_mixed) ex_cfg init_state)
  = Val (["/btrfs/@snapshots/7/snapshot"], None).
Proof. reflexivity. Qed.

(** The loop of [GetSnapshots] over a list of paths in two parts. *)
Lemma GetSnapshots_loop_app (lib : GoLib) (env : Env) (cfg : Config)
    (pre rest : list string) :
  forall (acc : list Snapshot) (s : State),
  GetSnapshots_loop lib env cfg (pre ++ rest) acc s
  = match GetSnapshots_loop lib env cfg pre acc s with
    | (Val (got, None), s2) => GetSnapshots_loop lib env cfg rest got s2
    | other => other
    end.
Proof.
  induction pre as [|p pre IH]; intros acc s.
  - reflexivity.
  - cbn [app GetSnapshots_loop]. run_proc.
    destruct (ReadSnapshotInfo lib env cfg p s) as [[[snap [e|]]|code] s1].
    + reflexivity.
    + apply IH.
    + reflexivity.
Qed.

(** [ReadSnapshotInfo] returns, and fails exactly when the record cannot be
    read or cannot be decoded. *)
Lemma ReadSnapshotInfo_spec (lib : GoLib) (env : Env) (cfg : Config)
    (p : string) (s : State) :
  let answer := os_ReadFile env (trace s) (info_path lib p) in
  ReadSnapshotInfo lib env cfg p s
  = (Val (match snd answer with
          | Some e => (zeroSnapshot, Some ("could not read XML file: " +++ e))
          | None =>
              match xml_Unmarshal lib (fst answer) with
              | (_, Some e) => (zeroSnapshot, Some ("could not unmarshal XML: " +++ e))
              | (snapshot, None) => (snapshot, None)
              end
          end),
     logged s [EvReadFile (info_path lib p) (fst answer) (snd answer)]).
Proof.
  cbv zeta. unfold ReadSnapshotInfo. run_proc. fold (info_path lib p).
  destruct (os_ReadFile env (trace s) (info_path lib p)) as [data [e|]];
    cbn [fst snd]; run_proc; [reflexivity|].
  destruct (xml_Unmarshal lib data) as [snap [e|]]; reflexivity.
Qed.

(** C6.  Let the candidates be [pre ++ p :: post], let the records of [pre]
    be read without failure, and let reading the record of [p] fail with
    [why].  Then [GetSnapshots] stops there: it returns the nil list and an
    error that names [p] and wraps [why], which is the error of reading the
    file or of decoding it. *)
Theorem GetSnapshots_all_or_nothing (lib : GoLib) (env : Env) (cfg : Config)
    (s s1 s2 s3 : State) (pre post : list string) (p : string)
    (got : list Snapshot) (snap : Snapshot) (why : string) :
  listSubvolumes lib env cfg s = (Val (pre ++ p :: post, None), s1) ->
  GetSnapshots_loop lib env cfg pre [] s1 = (Val (got, None), s2) ->
  ReadSnapshotInfo lib env cfg p s2 = (Val (snap, Some why), s3) ->
  GetSnapshots lib env cfg s
  = (Val ([], Some ("could not read snapshot info for " +++ p +++ ": " +++ why)), s3)
  /\ ((exists e, snd (os_ReadFile env (trace s2) (info_path lib p)) = Some e
                 /\ why = "could not read XML file: " +++ e)
      \/ (exists data e, os_ReadFile env (trace s2) (info_path lib p) = (data, None)
                         /\ snd (xml_Unmarshal lib data) = Some e
                         /\ why = "could not unmarshal XML: " +++ e)).
Proof.
  intros Hlist Hpre Hread. split.
  - unfold GetSnapshots. run_proc. rewrite Hlist.
    rewrite GetSnapshots_loop_app, Hpre.
    cbn [GetSnapshots_loop]. run_proc. rewrite Hread. reflexivity.
  - rewrite ReadSnapshotInfo_spec in Hread. cbv zeta in Hread.
    destruct (os_ReadFile env (trace s2) (info_path lib p)) as [data [e|]];
      cbn [fst snd] in Hread.
    + left. exists e. split; [reflexivity|]. congruence.
    + right. destruct (xml_Unmarshal lib data) as [sn [e|]] eqn:Ex; [|congruence].
      exists data, e. rewrite Ex. repeat split. congruence.
Qed.

Lemma GetSnapshots_all_or_nothing_witness :
  let env := scripted ex_script_no_record in
  let p := "/btrfs/@snapshots/abc/snapshot" in
  let why := "could not read XML file: no such file or directory" in
  let s1 := snd (listSubvolumes ex_lib env ex_cfg init_state) in
  let s2 := snd (GetSnapshots_loop ex_lib env ex_cfg
                   ["/btrfs/@snapshots/7/snapshot"] [] s1) in
  let s3 := snd (ReadSnapshotInfo ex_lib env ex_cfg p s2) in
  GetSnapshots ex_lib env ex_cfg init_state
  = (Val ([], Some ("could not read snapshot info for " +++ p +++ ": " +++ why)), s3)
  /\ ((exists e, snd (os_ReadFile env (trace s2) (info_path ex_lib p)) = Some e
                 /\ why = "could not read XML file: " +++ e)
      \/ (exists data e, os_ReadFile env (trace s2) (info_path ex_lib p) = (data, None)
                         /\ snd (xml_Unmarshal ex_lib data) = Some e
                         /\ why = "could not unmarshal XML: " +++ e)).
Proof.
  exact (GetSnapshots_all_or_nothing ex_lib (scripted ex_script_no_record) ex_cfg
           init_state _ _ _
           ["/btrfs/@snapshots/7/snapshot"] ["/btrfs/@snapshots/2/snapshot"]
           "/btrfs/@snapshots/abc/snapshot" _ _ _
           eq_refl eq_refl eq_refl).
Defined.

(** *** The order of the catalog *)

Lemma snapshot_less_strict_weak : strict_weak_order snapshot_less.
Proof.
  unfold strict_weak_order, snapshot_less. repeat split.
  - intros x. destruct (strconv_Atoi (ID x)); [|reflexivity].
    rewrite Z.gtb_ltb. apply Z.ltb_irrefl.
  - intros x y z.
    destruct (strconv_Atoi (ID x)), (strconv_Atoi (ID y)), (strconv_Atoi (ID z));
      try easy. rewrite !Z.gtb_ltb, !Z.ltb_lt. lia.
  - intros x y z.
    destruct (strconv_Atoi (ID x)), (strconv_Atoi (ID y)), (strconv_Atoi (ID z));
      try easy. rewrite !Z.gtb_ltb, !Z.ltb_ge. lia.
Qed.

Lemma snapshot_less_id_order (x y : Snapshot) :
  snapshot_less y x = false -> id_order x y.
Proof.
  unfold snapshot_less, id_order.
  destruct (strconv_Atoi (ID x)), (strconv_Atoi (ID y)); try easy.
  rewrite Z.gtb_ltb, Z.ltb_ge. auto.
Qed.

Lemma StronglySorted_weaken {A} (R Q : A -> A -> Prop) (l : list A) :
  (forall x y, R x y -> Q x y) -> StronglySorted R l -> StronglySorted Q l.
Proof.
  intros HRQ. induction 1 as [|a l Hs IH Hall]; constructor; auto.
  eapply Forall_impl; [|exact Hall]. auto.
Qed.

Lemma Permutation_three {A} (a b c : A) (l : list A) :
  Permutation [a; b; c] l ->
  l = [a; b; c] \/ l = [a; c; b] \/ l = [b; a; c]
  \/ l = [b; c; a] \/ l = [c; a; b] \/ l = [c; b; a].
Proof.
  intros H. pose proof (Permutation_length H) as Hlen.
  destruct (Permutation_vs_cons_inv (Permutation_sym H)) as (l1 & l2 & ->).
  apply Permutation_cons_app_inv, Permutation_length_2_inv in H.
  destruct l1 as [|x [|y [|z l1]]]; cbn in H, Hlen |- *.
  - destruct H as [-> | ->]; auto.
  - destruct H as [H | H]; injection H as -> ->; auto 7.
  - destruct H as [H | H]; injection H as -> -> ->; auto 7.
  - rewrite length_app in Hlen. cbn in Hlen. lia.
Qed.

Lemma StronglySorted_three {A} (R : A -> A -> Prop) (x y z : A) :
  StronglySorted R [x; y; z] -> R x y /\ R x z /\ R y z.
Proof.
  intros H. inversion H as [|? ? H1 Hx]; subst.
  inversion H1 as [|? ? _ Hy]; subst.
  inversion Hx as [|? ? Hxy Hx']; subst. inversion Hx'; subst.
  inversion Hy; subst. auto.
Qed.

(** The catalog of the identifiers 7, abc and 2 has one sorted order. *)
Lemma sorted_7_abc_2 (discovered snaps : list Snapshot) :
  Permutation snaps discovered ->
  StronglySorted id_order snaps ->
  map ID discovered = ["7"; "abc"; "2"] ->
  map ID snaps = ["7"; "2"; "abc"].
Proof.
  intros Hperm Hsorted Hids.
  destruct discovered as [|d1 [|d2 [|d3 [|]]]]; try discriminate.
  injection Hids as H1 H2 H3.
  apply Permutation_sym, Permutation_three in Hperm.
  destruct Hperm as [-> | [-> | [-> | [-> | [-> | ->]]]]];
    apply StronglySorted_three in Hsorted; destruct Hsorted as (Ha & Hb & Hc);
    unfold id_order in Ha, Hb, Hc;
    rewrite ?H1, ?H2, ?H3 in Ha; rewrite ?H1, ?H2, ?H3 in Hb;
    rewrite ?H1, ?H2, ?H3 in Hc;
    change (strconv_Atoi "7") with (Some 7%Z) in *;
    change (strconv_Atoi "2") with (Some 2%Z) in *;
    change (strconv_Atoi "abc") with (@None Z) in *;
    cbv beta iota in Ha, Hb, Hc; try tauto; try lia.
  cbn [map]. congruence.
Qed.

(** Insertion sort meets the contract of [sort.Slice]. *)
Lemma insert_sorted_perm {A} (less : A -> A -> bool) (x : A) (l : list A) :
  Permutation (insert_sorted less x l) (x :: l).
Proof.
  induction l as [|y l IH]; cbn; [reflexivity|].
  destruct (less y x); [|reflexivity].
  rewrite IH. apply perm_swap.
Qed.

Lemma insertion_sort_perm {A} (less : A -> A -> bool) (l : list A) :
  Permutation (insertion_sort less l) l.
Proof.
  induction l as [|x l IH]; cbn; [reflexivity|].
  rewrite insert_sorted_perm. now constructor.
Qed.

Lemma insert_sorted_sorted {A} (less : A -> A -> bool) (x : A) (l : list A) :
  strict_weak_order less ->
  StronglySorted (fun a b => less b a = false) l ->
  StronglySorted (fun a b => less b a = false) (insert_sorted less x l).
Proof.
  intros (Hirr & Htrans & Hneg). induction 1 as [|y l Hs IH Hall]; cbn.
  - repeat constructor.
  - destruct (less y x) eqn:Hyx.
    + constructor; [exact IH|].
      eapply Permutation_Forall; [symmetry; apply insert_sorted_perm|].
      constructor; [|exact Hall].
      destruct (less x y) eqn:Hxy; [|reflexivity].
      rewrite <- (Hirr y). symmetry. eauto.
    + constructor; [now constructor|].
      constructor; [exact Hyx|].
      eapply Forall_impl; [|exact Hall]. cbn. intros z Hz. eauto.
Qed.

Lemma insertion_sort_sorts : sorts insertion_sort.
Proof.
  intros less l. split; [apply insertion_sort_perm|].
  intros Hswo. induction l as [|x l IH]; cbn; [constructor|].
  now apply insert_sorted_sorted.
Qed.

(** C3, as the code has it.  Under the contract of [sort.Slice] (the result
    is a permutation of the slice, sorted by [less] when [less] is a strict
    weak order), the descriptors [GetSnapshots] returns are those it
    discovered, in descending order of the numeric identifier, every
    identifier that does not parse after every one that parses.  Nothing is
    said of the order among identifiers that do not parse.  The catalog of
    the identifiers 7, abc and 2 comes out as 7, 2, abc. *)
Theorem GetSnapshots_sorted (lib : GoLib) (env : Env) (cfg : Config)
    (s s' : State) (snaps : list Snapshot) :
  sorts (sort_Slice lib) ->
  GetSnapshots lib env cfg s = (Val (snaps, None), s') ->
  exists paths s1 discovered,
    listSubvolumes lib env cfg s = (Val (paths, None), s1)
    /\ GetSnapshots_loop lib env cfg paths [] s1 = (Val (discovered, None), s')
    /\ snaps = sort_Slice lib snapshot_less discovered
    /\ Permutation snaps discovered
    /\ StronglySorted id_order snaps
    /\ (map ID discovered = ["7"; "abc"; "2"] -> map ID snaps = ["7"; "2"; "abc"]).
Proof.
  intros Hsorts Hrun. unfold GetSnapshots in Hrun. run_proc in Hrun.
  destruct (listSubvolumes lib env cfg s) as [[[paths [e|]]|code] s1] eqn:Hlist;
    try discriminate.
  destruct (GetSnapshots_loop lib env cfg paths [] s1)
    as [[[discovered [e|]]|code] s2] eqn:Hloop; try discriminate.
  injection Hrun as <- <-.
  destruct (Hsorts snapshot_less discovered) as (Hperm & Hsorted).
  specialize (Hsorted snapshot_less_strict_weak).
  apply (StronglySorted_weaken _ id_order) in Hsorted;
    [|intros x y; apply snapshot_less_id_order].
  exists paths, s1, discovered.
  do 5 (split; [auto|]).
  intros Hids. eapply sorted_7_abc_2; eauto.
Qed.

Lemma GetSnapshots_sorted_witness :
  let env := scripted ex_script in
  let snaps := insertion_sort snapshot_less
                 (map (fun n => fst (ex_Unmarshal n)) ["7"; "abc"; "2"]) in
  let s' := snd (GetSnapshots ex_lib env ex_cfg init_state) in
  exists paths s1 discovered,
    listSubvolumes ex_lib env ex_cfg init_state = (Val (paths, None), s1)
    /\ GetSnapshots_loop ex_lib env ex_cfg paths [] s1 = (Val (discovered, None), s')
    /\ snaps = sort_Slice ex_lib snapshot_less discovered
    /\ Permutation snaps discovered
    /\ StronglySorted id_order snaps
    /\ (map ID discovered = ["7"; "abc"; "2"] -> map ID snaps = ["7"; "2"; "abc"]).
Proof.
  exact (GetSnapshots_sorted ex_lib (scripted ex_script) ex_cfg init_state _ _
           insertion_sort_sorts eq_refl).
Defined.

(** C3 as stated fails on the sort of the Go library: of thirteen
    descriptors, twelve with identifiers that do not parse followed by
    snapshot 1, the twelve do not keep their discovery order.  The result is
    a permutation of the descriptors and in the order of the identifiers,
    as the contract of [sort.Slice] has it. *)
Lemma GetSnapshots_unparsable_order_not_kept :
  exists discovered sorted s',
    GetSnapshots go_lib (scripted ex_script13) ex_cfg init_state
    = (Val (sorted, None), s')
    /\ map ID discovered = ex_names13
    /\ GoSort.Slice snapshot_less discovered = Some sorted
    /\ map ID sorted = ["1"; "g"; "c"; "d"; "e"; "f"; "a"; "h"; "i"; "j"; "k"; "l"; "b"]
    /\ Permutation sorted discovered
    /\ StronglySorted id_order sorted
    /\ unparsable_ids sorted <> unparsable_ids discovered.
Proof.
  exists (map (fun n => fst (ex_Unmarshal n)) ex_names13).
  eexists. eexists.
  split; [vm_compute; reflexivity|].
  split; [reflexivity|].
  split; [vm_compute; reflexivity|].
  split; [reflexivity|].
  split; [|split].
  - pose (by_id := fun a b : Snapshot => String.ltb (ID a) (ID b)).
    etransitivity; [symmetry; apply (insertion_sort_perm by_id)|].
    etransitivity; [|apply (insertion_sort_perm by_id)].
    vm_compute. reflexivity.
  - repeat constructor; exact I.
  - vm_compute. discriminate.
Qed.

(** On the catalog of the identifiers 7, abc and 2 the sort of the Go
    library, an insertion sort at this length, gives 7, 2, abc. *)
Example GetSnapshots_go_7_abc_2 :
  GoSort.Slice snapshot_less (map (fun n => fst (ex_Unmarshal n)) ["7"; "abc"; "2"])
  = Some (map (fun n => fst (ex_Unmarshal n)) ["7"; "2"; "abc"])
  /\ option_map (fun r => map ID (fst r))
       (match fst (GetSnapshots go_lib (scripted ex_script) ex_cfg init_state) with
        | Val r => Some r
        | Exited _ => None
        end)
     = Some ["7"; "2"; "abc"].
Proof. split; reflexivity. Qed.

(** ** The whole program *)

Lemma bindP_assoc {A B C} (c : Proc A) (f : A -> Proc B) (g : B -> Proc C)
    (s : State) :
  bindP (bindP c f) g s = bindP c (fun a => bindP (f a) g) s.
Proof. unfold bindP. destruct (c s) as [[a|code] s']; reflexivity. Qed.

Lemma bindP_ext {A B} (c : Proc A) (f g : A -> Proc B) (s : State) :
  (forall a s', f a s' = g a s') -> bindP c f s = bindP c g s.
Proof. intros H. unfold bindP. destruct (c s) as [[a|code] s']; auto. Qed.

Lemma main_split (lib : GoLib) (W : ListWidget) (env : Env) (s : State) :
  main lib W env s = bindP (startup env) (after_startup lib W env) s.
Proof.
  unfold main, startup. cbn [bind ret Monad_Proc].
  repeat (rewrite bindP_assoc; apply bindP_ext; intros ? ?).
  reflexivity.
Qed.

(** *** What each part of the program appends to the trace *)

Lemma quiet_app (a b : list Event) : quiet a -> quiet b -> quiet (a ++ b).
Proof. unfold quiet. intros Ha Hb. now rewrite existsb_app, Ha, Hb. Qed.

Lemma confirmed_app_l (a b : list Event) : confirmed a -> confirmed (a ++ b).
Proof. intros (c & Hc & Hin). exists c. split; [exact Hc|]. apply in_or_app. auto. Qed.

Lemma confirmed_app_r (a b : list Event) : confirmed b -> confirmed (a ++ b).
Proof. intros (c & Hc & Hin). exists c. split; [exact Hc|]. apply in_or_app. auto. Qed.

Lemma appends_bind {A B} (P : list Event -> Prop) (c : Proc A) (k : A -> Proc B) :
  (forall a b, P a -> P b -> P (a ++ b)) ->
  appends P c -> (forall a, appends P (k a)) -> appends P (bindP c k).
Proof.
  intros Hp Hc Hk s. destruct (Hc s) as (evs1 & Ht1 & Hq1). unfold bindP.
  destruct (c s) as [[a|code] s1]; cbn [snd] in Ht1 |- *.
  - destruct (Hk a s1) as (evs2 & Ht2 & Hq2).
    exists (evs1 ++ evs2). rewrite Ht2, Ht1, app_assoc. auto.
  - exists evs1. auto.
Qed.

Lemma appends_ret {A} (P : list Event -> Prop) (a : A) : P [] -> appends P (retP a).
Proof. intros Hp s. exists []. cbn. now rewrite app_nil_r. Qed.

Lemma appends_weaken {A} (P Q : list Event -> Prop) (c : Proc A) :
  (forall evs, P evs -> Q evs) -> appends P c -> appends Q c.
Proof. intros H Hc s. destruct (Hc s) as (evs & Ht & Hp). exists evs. auto. Qed.

Lemma silent_bind {A B} (c : Proc A) (k : A -> Proc B) :
  silent c -> (forall a, silent (k a)) -> silent (bindP c k).
Proof. apply appends_bind. apply quiet_app. Qed.

Lemma silent_ret {A} (a : A) : silent (retP a).
Proof. now apply appends_ret. Qed.

Lemma silent_ask {A} (q : list Event -> A) (ev : A -> Event) :
  (forall a, is_rollback_event (ev a) = false) -> silent (ask q ev).
Proof.
  intros H s. exists [ev (q (trace s))]. split; [reflexivity|].
  unfold quiet. cbn. now rewrite H.
Qed.

Lemma silent_emit (e : Event) : is_rollback_event e = false -> silent (emit e).
Proof.
  intros H s. exists [e]. split; [reflexivity|]. unfold quiet. cbn. now rewrite H.
Qed.

Lemma silent_exit {A} (code : Z) : silent (@os_Exit A code).
Proof. intros s. exists []. cbn. now rewrite app_nil_r. Qed.

Lemma silent_get_dryRun : silent get_dryRun.
Proof. intros s. exists []. cbn. now rewrite app_nil_r. Qed.

Lemma silent_SetDryRun (b : bool) : silent (SetDryRun b).
Proof. intros s. exists []. cbn. now rewrite app_nil_r. Qed.

(** Takes a process apart along its binds and branches. *)
Ltac silent_steps :=
  repeat first
    [ apply silent_ret
    | apply silent_exit
    | apply silent_get_dryRun
    | apply silent_SetDryRun
    | apply silent_emit; reflexivity
    | apply silent_ask; intros; reflexivity
    | apply silent_bind; [|intros]
    | match goal with
      | |- silent (let '(_, _) := ?x in _) => destruct x
      | |- silent (match ?x with _ => _ end) => destruct x
      | |- silent (if ?x then _ else _) => destruct x
      end ].

Lemma silent_Must (err : error) : silent (Must err).
Proof.
  unfold Must, log_Fatal. cbn [bind ret Monad_Proc]. silent_steps.
Qed.

Lemma silent_MountSubvol (env : Env) (cfg : Config) : silent (MountSubvol env cfg).
Proof.
  unfold MountSubvol, cmd_CombinedOutput, cmd_Run, fmt_Print, device_not_specified.
  cbn [bind ret Monad_Proc]. silent_steps.
Qed.

Lemma silent_listSubvolumes_loop (lib : GoLib) (env : Env) (dir : string)
    (entries : list DirEntry) :
  forall acc, silent (listSubvolumes_loop lib env dir entries acc).
Proof.
  induction entries as [|entry rest IH]; intros acc; cbn [listSubvolumes_loop].
  - apply silent_ret.
  - cbn [bind ret Monad_Proc]. apply silent_bind; [|intros ok; apply IH].
    unfold realIsBtrfsSubvolume, cmd_Run. cbn [bind ret Monad_Proc]. silent_steps.
Qed.

Lemma silent_ReadSnapshotInfo (lib : GoLib) (env : Env) (cfg : Config) (p : string) :
  silent (ReadSnapshotInfo lib env cfg p).
Proof.
  unfold ReadSnapshotInfo, ReadFile. cbn [bind ret Monad_Proc]. silent_steps.
Qed.

Lemma silent_GetSnapshots_loop (lib : GoLib) (env : Env) (cfg : Config)
    (paths : list string) :
  forall acc, silent (GetSnapshots_loop lib env cfg paths acc).
Proof.
  induction paths as [|p rest IH]; intros acc; cbn [GetSnapshots_loop].
  - apply silent_ret.
  - cbn [bind ret Monad_Proc].
    apply silent_bind; [apply silent_ReadSnapshotInfo|].
    intros [snap [e|]]; [apply silent_ret | apply IH].
Qed.

Lemma silent_GetSnapshots (lib : GoLib) (env : Env) (cfg : Config) :
  silent (GetSnapshots lib env cfg).
Proof.
  unfold GetSnapshots, listSubvolumes, ReadDir. cbn [bind ret Monad_Proc].
  apply silent_bind.
  - apply silent_bind; [apply silent_ask; intros; reflexivity|].
    intros [entries [e|]]; [apply silent_ret|].
    apply silent_bind; [apply silent_listSubvolumes_loop | intros; apply silent_ret].
  - intros [paths [e|]]; [apply silent_ret|].
    apply silent_bind; [apply silent_GetSnapshots_loop|].
    intros [snaps [e|]]; apply silent_ret.
Qed.

Lemma silent_RunUI (W : ListWidget) (env : Env) (snaps : list Snapshot) :
  silent (RunUI W env snaps).
Proof.
  unfold RunUI, tea_Run. cbn [bind ret Monad_Proc]. silent_steps.
Qed.

Lemma silent_ClearScreen (env : Env) : silent (ClearScreen env).
Proof.
  unfold ClearScreen, cmd_Run. cbn [bind ret Monad_Proc]. silent_steps.
Qed.

Lemma silent_startup (env : Env) : silent (startup env).
Proof.
  unfold startup, cmd_Config, loadConfig, ParseConfig, CheckIfRoot, fmt_Print.
  cbn [bind ret Monad_Proc].
  apply silent_bind; [apply silent_ask; intros; reflexivity|]. intros err.
  apply silent_bind; [apply silent_Must|]. intros _.
  silent_steps.
Qed.

(** *** The selection surface *)

Lemma cancel_key_not_enter (key : string) :
  is_cancel_key key = true -> String.eqb key "enter" = false.
Proof.
  intros H. destruct (String.eqb_spec key "enter") as [->|]; [|reflexivity].
  discriminate H.
Qed.

Lemma Update_cancel (W : ListWidget) (m : model W) (key : string) :
  is_cancel_key key = true ->
  Update W m (KeyMsg key)
  = Some (mkModel (m_width m) (m_height m) true (Some "") (m_list m)
                  (m_selectedID m) (m_snapshots m) (m_delegate m), CmdQuit).
Proof.
  intros H. unfold Update. now rewrite (cancel_key_not_enter key H), H.
Qed.

(** A cancel key pressed while the selection is open ends the event loop
    with the error set in the model. *)
Lemma tea_loop_cancel (W : ListWidget) (key : string) (post : list Msg) :
  is_cancel_key key = true ->
  forall (pre : list Msg) (m0 m : model W) (consumed : list Msg),
  still_open W m0 pre = Some m ->
  exists m',
    tea_loop W m0 (pre ++ KeyMsg key :: post) consumed
    = ((m', None), consumed ++ pre ++ [KeyMsg key])
    /\ m_err m' = Some "".
Proof.
  intros Hkey. induction pre as [|msg pre IH]; intros m0 m consumed Hopen.
  - cbn [app tea_loop]. rewrite (Update_cancel W m0 key Hkey).
    eexists. split; reflexivity.
  - cbn [still_open] in Hopen. cbn [app tea_loop].
    destruct (Update W m0 msg) as [[m1 [| |]]|]; try discriminate.
    + destruct (IH m1 m (consumed ++ [msg]) Hopen) as (m' & Hloop & Herr).
      exists m'. rewrite Hloop, <- app_assoc. auto.
    + destruct (IH m1 m (consumed ++ [msg]) Hopen) as (m' & Hloop & Herr).
      exists m'. rewrite Hloop, <- app_assoc. auto.
Qed.

Lemma RunUI_cancel (W : ListWidget) (env : Env) (snaps : list Snapshot) (s : State)
    (pre post : list Msg) (key : string) (m : model W) :
  tea_start env (trace s) = None ->
  tea_msgs env (trace s) = pre ++ KeyMsg key :: post ->
  still_open W (InitialModel W snaps) pre = Some m ->
  is_cancel_key key = true ->
  RunUI W env snaps s = (Exited 1, logged s [EvTea (pre ++ [KeyMsg key]) None]).
Proof.
  intros Hstart Hmsgs Hopen Hkey.
  destruct (tea_loop_cancel W key post Hkey pre _ m [] Hopen) as (m' & Hloop & Herr).
  unfold RunUI, tea_Run. run_proc. rewrite Hstart, Hmsgs, Hloop.
  cbn [fst snd]. rewrite Herr. reflexivity.
Qed.

(** C2, as the code has it.  After the startup, a failure of the mount or
    of the discovery is logged and the process exits with status 1; and a
    cancel key (ctrl+c, esc, q) pressed while the selection is open makes
    the process exit with status 1 as well, the selection being the last
    thing it did: no confirmation is asked, and the run holds no event of
    the rollback. *)
Theorem main_exit_status (lib : GoLib) (W : ListWidget) (env : Env)
    (s s1 : State) (cfg : Config) :
  startup env s = (Val cfg, s1) ->
  (forall e s2,
     MountSubvol env cfg s1 = (Val (Some e), s2) ->
     main lib W env s = (Exited 1, logged s2 [EvLogFatal e]))
  /\ (forall s2 snaps e s3,
        MountSubvol env cfg s1 = (Val None, s2) ->
        GetSnapshots lib env cfg s2 = (Val (snaps, Some e), s3) ->
        main lib W env s = (Exited 1, logged s3 [EvLogFatal e]))
  /\ (forall s2 snaps s3 pre key post m,
        MountSubvol env cfg s1 = (Val None, s2) ->
        GetSnapshots lib env cfg s2 = (Val (snaps, None), s3) ->
        tea_start env (trace s3) = None ->
        tea_msgs env (trace s3) = pre ++ KeyMsg key :: post ->
        still_open W (InitialModel W snaps) pre = Some m ->
        is_cancel_key key = true ->
        main lib W env s
        = (Exited 1, logged s3 [EvTea (pre ++ [KeyMsg key]) None])
        /\ exists evs, trace s3 = trace s ++ evs
                       /\ existsb is_rollback_event evs = false).
Proof.
  intros Hstart.
  assert (Hmain : main lib W env s = after_startup lib W env cfg s1).
  { rewrite main_split. unfold bindP at 1. now rewrite Hstart. }
  rewrite Hmain. clear Hmain.
  unfold after_startup.
  split; [|split].
  - intros e s2 Hmount. run_proc. rewrite Hmount. reflexivity.
  - intros s2 snaps e s3 Hmount Hget. run_proc. rewrite Hmount.
    cbn [Must]. run_proc. rewrite Hget. reflexivity.
  - intros s2 snaps s3 pre key post m Hmount Hget Hstart' Hmsgs Hopen Hkey.
    split.
    + run_proc. rewrite Hmount. cbn [Must]. run_proc. rewrite Hget.
      cbn [Must]. run_proc. unfold select_and_rollback. run_proc.
      now rewrite (RunUI_cancel W env snaps s3 pre post key m).
    + destruct (silent_startup env s) as (e0 & H0 & Q0).
      destruct (silent_MountSubvol env cfg s1) as (e1 & H1 & Q1).
      destruct (silent_GetSnapshots lib env cfg s2) as (e2 & H2 & Q2).
      rewrite Hstart in H0. rewrite Hmount in H1. rewrite Hget in H2.
      cbn [snd] in H0, H1, H2.
      exists (e0 ++ e1 ++ e2). rewrite H2, H1, H0, <- !app_assoc.
      split; [reflexivity|]. apply quiet_app; [exact Q0|].
      apply quiet_app; assumption.
Qed.

Lemma main_exit_status_witness :
  let env := scripted ex_script_cancel in
  let s1 := snd (startup env init_state) in
  let s2 := snd (MountSubvol env ex_cfg s1) in
  let s3 := snd (GetSnapshots ex_lib env ex_cfg s2) in
  main ex_lib cursor_list env init_state
  = (Exited 1,
     logged s3 [EvTea ([WindowSizeMsg 80 24; KeyMsg "down"] ++ [KeyMsg "q"]) None])
  /\ exists evs, trace s3 = trace init_state ++ evs
                 /\ existsb is_rollback_event evs = false.
Proof.
  exact (proj2 (proj2 (main_exit_status ex_lib cursor_list (scripted ex_script_cancel)
                         init_state _ ex_cfg eq_refl))
               _ _ _ [WindowSizeMsg 80 24; KeyMsg "down"] "q" [] _
               eq_refl eq_refl eq_refl eq_refl eq_refl eq_refl).
Defined.

(** C2 as stated fails: the user presses q at the selection, and the
    process exits with status 1, not 0. *)
Lemma main_cancel_exits_with_status_1 :
  let env := scripted ex_script_cancel in
  tea_msgs env (trace (snd (GetSnapshots ex_lib env ex_cfg
                              (snd (MountSubvol env ex_cfg
                                      (snd (startup env init_state)))))))
  = [WindowSizeMsg 80 24; KeyMsg "down"; KeyMsg "q"]
  /\ exit_status (fst (main ex_lib cursor_list env init_state)) = 1%Z.
Proof. split; reflexivity. Qed.

(** The error [Rollback] returns is dropped by [main]: the move fails, the
    process ends with status 0 and logs nothing. *)
Example main_drops_rollback_error :
  let env := scripted ex_script_mv_fails in
  exists s',
    main ex_lib cursor_list env init_state = (Val tt, s')
    /\ In (EvRun ["mv"; "/btrfs/@"; "/btrfs/@.old"] (Some "exit status 1")) (trace s')
    /\ forall text, ~ In (EvLogFatal text) (trace s').
Proof.
  eexists. split; [vm_compute; reflexivity|]. split.
  - cbn. tauto.
  - intros text H. cbn in H.
    repeat (destruct H as [H|H]; [discriminate H|]). exact H.
Qed.

(** *** The confirmation *)

Lemma ToLower_byte_y (c : ascii) :
  String.eqb (ToLower_byte c) "y" = Ascii.eqb c "y" || Ascii.eqb c "Y".
Proof. destruct c as [[] [] [] [] [] [] [] []]; reflexivity. Qed.

Lemma Confirm_spec (env : Env) (prompt : string) (s : State) :
  let h := trace s ++ [EvStdout (prompt +++ " [y/N]: ")] in
  let raw := term_MakeRaw env h in
  let key := stdin_Read env (h ++ [EvMakeRaw None]) in
  Confirm env prompt s
  = (Val (affirmative raw key), logged s (confirm_events prompt raw key)).
Proof.
  cbv zeta. unfold Confirm, confirm_events, affirmative, logged. run_proc.
  destruct (term_MakeRaw env _) as [e|]; run_proc.
  - rewrite <- !app_assoc. reflexivity.
  - rewrite <- !app_assoc. cbn [app].
    destruct (stdin_Read env _) as [c|]; rewrite ToLower_byte_y; reflexivity.
Qed.

Lemma confirm_events_quiet (prompt : string) (raw : error) (key : option ascii) :
  quiet (confirm_events prompt raw key).
Proof. destruct raw; reflexivity. Qed.

Lemma affirmative_confirmed (prompt : string) (raw : error) (key : option ascii) :
  affirmative raw key = true -> confirmed (confirm_events prompt raw key).
Proof.
  unfold affirmative, confirmed, confirm_events.
  destruct raw as [e|]; [discriminate|]. destruct key as [c|]; [|discriminate].
  intros H. apply orb_true_iff in H. exists c. split.
  - destruct H as [H|H]; apply Ascii.eqb_eq in H; auto.
  - cbn. auto.
Qed.

Lemma extends_ask {A} (q : list Event -> A) (ev : A -> Event) :
  appends (fun _ => True) (ask q ev).
Proof. intros s. exists [ev (q (trace s))]. split; [reflexivity | exact I]. Qed.

Lemma extends_emit (e : Event) : appends (fun _ => True) (emit e).
Proof. intros s. exists [e]. split; [reflexivity | exact I]. Qed.

Lemma extends_silent {A} (c : Proc A) : silent c -> appends (fun _ => True) c.
Proof. apply appends_weaken. auto. Qed.

Lemma extends_Rollback (lib : GoLib) (env : Env) (cfg : Config) (snapshotID : string) :
  appends (fun _ => True) (Rollback lib env cfg snapshotID).
Proof.
  unfold Rollback, Stat, cmd_Run, fmt_Print. cbn [bind ret Monad_Proc].
  repeat first
    [ apply extends_ask
    | apply extends_emit
    | apply extends_silent; first [apply silent_ret | apply silent_get_dryRun]
    | apply appends_bind; [auto | | intros]
    | match goal with
      | |- appends _ (match ?x with _ => _ end) => destruct x
      | |- appends _ (if ?x then _ else _) => destruct x
      end ].
Qed.

Lemma guarded_bind {A B} (c : Proc A) (k : A -> Proc B) :
  silent c -> (forall a, guarded (k a)) -> guarded (bindP c k).
Proof.
  intros Hc Hk s. destruct (Hc s) as (evs1 & Ht1 & Hq1). unfold bindP.
  destruct (c s) as [[a|code] s1]; cbn [snd] in Ht1 |- *.
  - destruct (Hk a s1) as (pre & post & Ht2 & Hq2 & Hpost).
    exists (evs1 ++ pre), post. rewrite Ht2, Ht1, <- !app_assoc.
    split; [reflexivity|]. split; [now apply quiet_app|].
    destruct Hpost as [-> | Hc2]; auto using confirmed_app_r.
  - exists evs1, []. rewrite app_nil_r. auto.
Qed.

(** Without the dry-run flag, what follows the selection runs the rollback
    only after [Confirm] has read y or Y. *)
Lemma guarded_select_and_rollback (lib : GoLib) (W : ListWidget) (env : Env)
    (cfg : Config) (snaps : list Snapshot) :
  flag_dry_run env = false ->
  guarded (select_and_rollback lib W env cfg snaps).
Proof.
  intros Hflag. unfold select_and_rollback, cmd_DryRun.
  rewrite Hflag. cbn [negb bind ret Monad_Proc].
  apply guarded_bind; [apply silent_RunUI|]. intros [snapshotID err].
  apply guarded_bind; [apply silent_Must|]. intros _.
  apply guarded_bind; [apply silent_ClearScreen|]. intros _ s.
  set (prompt := "Are you sure you want to rollback to snapshot " +++ snapshotID +++ "?").
  unfold bindP, fmt_Print, emit, retP. rewrite Confirm_spec. cbv zeta.
  set (raw := term_MakeRaw env _). set (key := stdin_Read env _).
  cbn [trace dryRun logged snd].
  assert (Hq : quiet (confirm_events prompt raw key ++ [EvStdout LF])).
  { apply quiet_app; [apply confirm_events_quiet | reflexivity]. }
  destruct (affirmative raw key) eqn:Hyes.
  - destruct (extends_Rollback lib env cfg snapshotID
                {| trace := (trace s ++ confirm_events prompt raw key) ++ [EvStdout LF];
                   dryRun := dryRun s |}) as (evs & Ht & _).
    destruct (Rollback lib env cfg snapshotID _) as [[r|code] s'];
      cbn [snd trace] in Ht |- *;
      exists (confirm_events prompt raw key ++ [EvStdout LF]), evs;
      (split; [rewrite Ht, <- !app_assoc; reflexivity|]);
      (split; [exact Hq|]);
      right; apply confirmed_app_l; now apply affirmative_confirmed.
  - exists (confirm_events prompt raw key ++ [EvStdout LF]), [].
    cbn [trace snd]. rewrite app_nil_r, <- app_assoc. auto.
Qed.

Lemma guarded_main (lib : GoLib) (W : ListWidget) (env : Env) :
  flag_dry_run env = false -> guarded (main lib W env).
Proof.
  intros Hflag s. rewrite main_split. revert s.
  apply guarded_bind; [apply silent_startup|]. intros cfg.
  unfold after_startup. cbn [bind ret Monad_Proc].
  apply guarded_bind; [apply silent_MountSubvol|]. intros err.
  apply guarded_bind; [apply silent_Must|]. intros _.
  apply guarded_bind; [apply silent_GetSnapshots|]. intros [snaps err'].
  apply guarded_bind; [apply silent_Must|]. intros _.
  now apply guarded_select_and_rollback.
Qed.

(** C10.  [Confirm] returns true exactly when the terminal went into raw
    mode and the byte read is y or Y; it returns false when raw mode fails,
    when nothing is read, and for every other byte.  And without the
    dry-run flag, whatever [main] does of the rollback (the query for the
    stale backup, a deletion, the move, the snapshot, the default
    subvolume) comes after an affirmative key press: the events of a run
    are [pre ++ post], with nothing of the rollback in [pre], and y or Y
    read in [pre] unless [post] is empty. *)
Theorem Confirm_default_deny (lib : GoLib) (W : ListWidget) (env : Env) (s : State) :
  (forall prompt,
     let h := trace s ++ [EvStdout (prompt +++ " [y/N]: ")] in
     let raw := term_MakeRaw env h in
     let key := stdin_Read env (h ++ [EvMakeRaw None]) in
     fst (Confirm env prompt s) = Val (affirmative raw key)
     /\ (affirmative raw key = true <->
         raw = None /\ (key = Some "y"%char \/ key = Some "Y"%char)))
  /\ (flag_dry_run env = false ->
      exists pre post,
        trace (snd (main lib W env s)) = trace s ++ pre ++ post
        /\ existsb is_rollback_event pre = false
        /\ (post = [] \/ confirmed pre)).
Proof.
  split.
  - intros prompt. cbv zeta. rewrite Confirm_spec. split; [reflexivity|].
    unfold affirmative.
    destruct (term_MakeRaw env _) as [e|];
      [split; [discriminate | intros [? _]; discriminate]|].
    destruct (stdin_Read env _) as [c|].
    + rewrite orb_true_iff, !Ascii.eqb_eq. split.
      * intros [-> | ->]; auto.
      * intros (_ & [H | H]); injection H; auto.
    + split; [discriminate | intros (_ & [H | H]); discriminate].
  - intros Hflag. exact (guarded_main lib W env Hflag s).
Qed.

Lemma Confirm_default_deny_witness :
  let env := scripted ex_script in
  (forall prompt,
     let h := [EvStdout (prompt +++ " [y/N]: ")] in
     let raw := term_MakeRaw env h in
     let key := stdin_Read env (h ++ [EvMakeRaw None]) in
     fst (Confirm env prompt init_state) = Val (affirmative raw key)
     /\ (affirmative raw key = true <->
         raw = None /\ (key = Some "y"%char \/ key = Some "Y"%char)))
  /\ exists pre post,
       trace (snd (main ex_lib cursor_list env init_state)) = [] ++ pre ++ post
       /\ existsb is_rollback_event pre = false
       /\ (post = [] \/ confirmed pre).
Proof.
  split.
  - exact (proj1 (Confirm_default_deny ex_lib cursor_list (scripted ex_script) init_state)).
  - exact (proj2 (Confirm_default_deny ex_lib cursor_list (scripted ex_script) init_state)
                 eq_refl).
Defined.

(** The user declines: nothing of the rollback runs. *)
Example main_declined :
  let env := scripted (with_key (Some "n"%char) ex_script) in
  exit_status (fst (main ex_lib cursor_list env init_state)) = 0%Z
  /\ existsb is_rollback_event (trace (snd (main ex_lib cursor_list env init_state)))
     = false.
Proof. split; reflexivity. Qed.

(** * Further properties of the code *)

(** ** The Mount Guard *)

Lemma MountSubvol_mounted (env : Env) (cfg : Config) (s : State) :
  reported_unmounted (probe_answer env cfg s) = false ->
  MountSubvol env cfg s
  = (Val None,
     logged s [probe_event env cfg s;
               EvStdout ("Mountpoint is already mounted." +++ LF)]).
Proof.
  intros Hm. unfold MountSubvol. run_proc.
  fold (probe_argv cfg). fold (probe_answer env cfg s).
  unfold reported_unmounted in Hm. unfold probe_event, logged.
  destruct (probe_answer env cfg s) as [output err].
  cbn [fst snd] in Hm |- *. rewrite Hm. run_proc.
  rewrite <- app_assoc. reflexivity.
Qed.

(** X1.  When the probe of the mount table succeeds with some output,
    [MountSubvol] says that the mountpoint is mounted and returns nil; it
    runs no command, whatever the device and the dry-run flag are. *)
Theorem MountSubvol_already_mounted (env : Env) (cfg : Config) (s : State) :
  reported_unmounted (probe_answer env cfg s) = false ->
  MountSubvol env cfg s
  = (Val None,
     logged s [probe_event env cfg s;
               EvStdout ("Mountpoint is already mounted." +++ LF)])
  /\ executed [probe_event env cfg s;
               EvStdout ("Mountpoint is already mounted." +++ LF)] = [].
Proof.
  intros Hm. split; [now apply MountSubvol_mounted | reflexivity].
Qed.

Lemma MountSubvol_already_mounted_witness :
  let env := scripted ex_script in
  MountSubvol env ex_cfg init_state
  = (Val None,
     logged init_state [probe_event env ex_cfg init_state;
                        EvStdout ("Mountpoint is already mounted." +++ LF)])
  /\ executed [probe_event env ex_cfg init_state;
               EvStdout ("Mountpoint is already mounted." +++ LF)] = [].
Proof.
  exact (MountSubvol_already_mounted (scripted ex_script) ex_cfg init_state eq_refl).
Defined.

(** X2.  [MountSubvol] always returns (it never exits the process), keeps
    the dry-run flag, and runs at most one command: none when the
    mountpoint is reported as mounted or no device is configured, and
    otherwise the mount of the configured device at the mountpoint with
    subvolid=5, once.  Its result is nil exactly when the mountpoint was
    mounted already or that mount succeeded; a failing mount gives "failed
    to mount <dev>: <error>". *)
Theorem MountSubvol_at_most_one_mount (env : Env) (cfg : Config) (s : State) :
  exists r evs,
    MountSubvol env cfg s = (Val r, logged s evs)
    /\ answered_by env (trace s) evs
    /\ ((executed evs = []
         /\ (r = None <-> reported_unmounted (probe_answer env cfg s) = false)
         /\ (r <> None -> r = device_not_specified cfg
                          /\ (Dev cfg = None \/ Dev cfg = Some "")))
        \/ (exists dev m,
              Dev cfg = Some dev /\ dev <> ""
              /\ reported_unmounted (probe_answer env cfg s) = true
              /\ executed evs = [(mount_argv dev (Mountpoint cfg), m)]
              /\ r = option_map (mount_failed dev) m)).
Proof.
  destruct (reported_unmounted (probe_answer env cfg s)) eqn:Hun.
  - destruct (Dev cfg) as [dev|] eqn:Hdev.
    + destruct (String.eqb_spec dev "") as [->|Hne].
      * exists (device_not_specified cfg), [probe_event env cfg s].
        split; [apply MountSubvol_unmounted_no_device; auto|].
        split; [apply probe_event_answered|]. left.
        split; [reflexivity|]. split; [split; discriminate|]. auto.
      * pose proof (MountSubvol_unmounted_device env cfg s dev Hun Hdev Hne) as H.
        cbv zeta in H. eexists. eexists. split; [exact H|].
        pose proof (probe_event_answered env cfg s) as Hp. cbn in Hp.
        destruct Hp as (Hp & _).
        split.
        -- destruct (dryRun s); cbn [answered_by app];
             rewrite <- ?app_assoc; cbn [app]; repeat split; auto.
        -- right. eexists. eexists. repeat split; eauto.
           destruct (dryRun s); reflexivity.
    + exists (device_not_specified cfg), [probe_event env cfg s].
      split; [apply MountSubvol_unmounted_no_device; auto|].
      split; [apply probe_event_answered|]. left.
      split; [reflexivity|]. split; [split; discriminate|]. auto.
  - pose proof (MountSubvol_mounted env cfg s Hun) as H.
    eexists. eexists. split; [exact H|].
    pose proof (probe_event_answered env cfg s) as Hp. cbn in Hp.
    destruct Hp as (Hp & _).
    split; [cbn; auto|]. left. split; [reflexivity|].
    split; [split; auto|]. intros Hr. now contradiction Hr.
Qed.

(** ** The Rollback Engine *)

(** Normalises the trace of a run of [Rollback] with known answers. *)
Ltac rollback_cases env :=
  repeat
    match goal with
    | |- context [match exec_Run env ?hh ?a with _ => _ end] =>
        let E := fresh "Erun" in
        destruct (exec_Run env hh a) eqn:E; run_proc;
        rewrite <- ?app_assoc; cbn [app]
    end.

(** X3.  [Rollback] always returns, and it prints "Rollback completed using
    snapshot <id>" exactly when it returns nil, in dry-run mode or not; the
    message is then the last thing it does. *)
Theorem Rollback_completed_iff_nil (lib : GoLib) (env : Env) (cfg : Config)
    (snapshotID : string) (s : State) :
  exists r evs,
    Rollback lib env cfg snapshotID s = (Val r, logged s evs)
    /\ (r = None <-> In (EvStdout (completed snapshotID)) evs)
    /\ (r = None -> exists before, evs = before ++ [EvStdout (completed snapshotID)]).
Proof.
  destruct s as [h dry]. unfold Rollback, logged. run_proc.
  destruct (os_Stat env h (oldSubvolMainPath lib cfg)) as [e0|];
    cbn [is_err negb]; destruct dry; run_proc; rewrite <- ?app_assoc; cbn [app];
    rollback_cases env;
    eexists; eexists; (split; [reflexivity|]);
    (split; [split|]).
  all: try (intros Hr; discriminate Hr).
  all: try solve [intros _; cbn [In]; repeat first [now left | right]].
  all: try solve [intros _; reflexivity].
  all: try solve [intros _; eexists;
                  match goal with
                  | |- ?l = _ ++ [_] =>
                      change l with (removelast l ++ [last l EvRestore]); reflexivity
                  end].
  all: unfold completed; cbn [In String.append]; intros H;
    repeat match goal with
           | H : _ \/ _ |- _ => destruct H as [H|H]
           | H : False |- _ => destruct H
           end;
    discriminate H.
Qed.

(** ** The Snapshot Catalog *)

(** X4.  When the snapshot directory cannot be listed, [GetSnapshots]
    returns the nil list and the error "failed to list snapshot subvolumes:
    <error>"; it probes nothing and reads no record. *)
Theorem GetSnapshots_unreadable_directory (lib : GoLib) (env : Env) (cfg : Config)
    (s : State) (entries : list DirEntry) (e : string) :
  let dir := filepath_Join lib [Mountpoint cfg; SubvolSnapshots cfg] in
  os_ReadDir env (trace s) dir = (entries, Some e) ->
  GetSnapshots lib env cfg s
  = (Val ([], Some ("failed to list snapshot subvolumes: " +++ e)),
     logged s [EvReadDir dir entries (Some e)]).
Proof.
  intros dir Hdir. unfold GetSnapshots, listSubvolumes. run_proc.
  fold dir. rewrite Hdir. reflexivity.
Qed.

Lemma GetSnapshots_unreadable_directory_witness :
  let env := scripted ex_script_unlisted in
  GetSnapshots ex_lib env ex_cfg init_state
  = (Val ([], Some ("failed to list snapshot subvolumes: "
                    +++ "no such file or directory")),
     logged init_state
       [EvReadDir "/btrfs/@snapshots" [] (Some "no such file or directory")]).
Proof.
  exact (GetSnapshots_unreadable_directory ex_lib (scripted ex_script_unlisted)
           ex_cfg init_state [] "no such file or directory" eq_refl).
Defined.

(** X5.  When the snapshot directory can be listed, [listSubvolumes] runs
    one probe ([btrfs subvolume show <dir>/<name>/snapshot]) for each entry
    that is a directory, in the order of the listing, and nothing else; the
    paths it returns are those of the probes that succeeded, in the same
    order. *)
Theorem listSubvolumes_probes_in_order (lib : GoLib) (env : Env) (cfg : Config)
    (s : State) (entries : list DirEntry) :
  let dir := filepath_Join lib [Mountpoint cfg; SubvolSnapshots cfg] in
  os_ReadDir env (trace s) dir = (entries, None) ->
  exists evs,
    listSubvolumes lib env cfg s
    = (Val (succeeded_paths (executed evs), None),
       logged s (EvReadDir dir entries None :: evs))
    /\ map fst (executed evs)
       = map (fun entry => show_argv (candidate_path lib dir entry))
             (filter IsDir entries)
    /\ List.length (executed evs) = List.length evs
    /\ answered_by env (trace s ++ [EvReadDir dir entries None]) evs.
Proof.
  intros dir Hdir. unfold listSubvolumes. run_proc. fold dir. rewrite Hdir.
  cbn [fst snd]. run_proc.
  set (s1 := {| trace := trace s ++ [EvReadDir dir entries None]; dryRun := dryRun s |}).
  destruct (listSubvolumes_loop_probes lib env dir entries [] s1)
    as (evs & Hrun & Hmap & Hlen & Hans).
  exists evs. rewrite Hrun. cbn [app].
  split; [|auto].
  unfold logged, s1. cbn [trace dryRun]. rewrite <- app_assoc. reflexivity.
Qed.

Lemma listSubvolumes_probes_in_order_witness :
  let env := scripted ex_script_mixed in
  let dir := "/btrfs/@snapshots" in
  exists evs,
    listSubvolumes ex_lib env ex_cfg init_state
    = (Val (succeeded_paths (executed evs), None),
       logged init_state (EvReadDir dir ex_mixed_entries None :: evs))
    /\ map fst (executed evs)
       = map (fun entry => show_argv (candidate_path ex_lib dir entry))
             (filter IsDir ex_mixed_entries)
    /\ List.length (executed evs) = List.length evs
    /\ answered_by env ([] ++ [EvReadDir dir ex_mixed_entries None]) evs.
Proof.
  exact (listSubvolumes_probes_in_order ex_lib (scripted ex_script_mixed) ex_cfg
           init_state ex_mixed_entries eq_refl).
Defined.

(** ** Processes that keep the dry-run flag *)

Lemma free_of_app (f : Event -> bool) (a b : list Event) :
  free_of f a -> free_of f b -> free_of f (a ++ b).
Proof. unfold free_of. intros Ha Hb. now rewrite existsb_app, Ha, Hb. Qed.

Lemma logged_logged (s : State) (a b : list Event) :
  logged (logged s a) b = logged s (a ++ b).
Proof. unfold logged. cbn [trace dryRun]. now rewrite app_assoc. Qed.

Lemma steady_bind {A B} (P : list Event -> Prop) (c : Proc A) (k : A -> Proc B) :
  (forall a b, P a -> P b -> P (a ++ b)) ->
  steady P c -> (forall a, steady P (k a)) -> steady P (bindP c k).
Proof.
  intros Hp Hc Hk s. destruct (Hc s) as (evs1 & Ht1 & Hq1). unfold bindP.
  destruct (c s) as [[a|code] s1]; cbn [snd] in Ht1 |- *.
  - destruct (Hk a s1) as (evs2 & Ht2 & Hq2).
    exists (evs1 ++ evs2). rewrite Ht2, Ht1, logged_logged. auto.
  - exists evs1. auto.
Qed.

Lemma steady_ret {A} (P : list Event -> Prop) (a : A) : P [] -> steady P (retP a).
Proof. intros Hp s. exists []. cbn [retP snd]. now rewrite logged_nil. Qed.

Lemma steady_ask {A} (f : Event -> bool) (q : list Event -> A) (ev : A -> Event) :
  (forall a, f (ev a) = false) -> steady (free_of f) (ask q ev).
Proof.
  intros H s. exists [ev (q (trace s))]. split; [reflexivity|].
  unfold free_of. cbn. now rewrite H.
Qed.

Lemma steady_emit (f : Event -> bool) (e : Event) :
  f e = false -> steady (free_of f) (emit e).
Proof.
  intros H s. exists [e]. split; [reflexivity|]. unfold free_of. cbn. now rewrite H.
Qed.

Lemma steady_exit {A} (P : list Event -> Prop) (code : Z) :
  P [] -> steady P (@os_Exit A code).
Proof. intros Hp s. exists []. cbn [os_Exit snd]. now rewrite logged_nil. Qed.

Lemma steady_get_dryRun (P : list Event -> Prop) : P [] -> steady P get_dryRun.
Proof. intros Hp s. exists []. cbn [get_dryRun snd]. now rewrite logged_nil. Qed.

Lemma steady_appends {A} (P : list Event -> Prop) (c : Proc A) :
  steady P c -> appends P c.
Proof. intros H s. destruct (H s) as (evs & -> & Hp). exists evs. auto. Qed.

(** Takes a process apart along its binds and branches. *)
Ltac steady_steps :=
  repeat first
    [ apply steady_ret; reflexivity
    | apply steady_exit; reflexivity
    | apply steady_get_dryRun; reflexivity
    | apply steady_emit; reflexivity
    | apply steady_ask; intros; reflexivity
    | apply steady_bind; [apply free_of_app | | intros]
    | match goal with
      | |- steady _ (let '(_, _) := ?x in _) => destruct x
      | |- steady _ (match ?x with _ => _ end) => destruct x
      | |- steady _ (if ?x then _ else _) => destruct x
      end ].

Section SteadyDiscovery.

Variable f : Event -> bool.
Hypothesis f_show : forall p r, f (EvRun (show_argv p) r) = false.
Hypothesis f_file : forall p data r, f (EvReadFile p data r) = false.
Hypothesis f_dir : forall p entries r, f (EvReadDir p entries r) = false.

Variable lib : GoLib.
Variable env : Env.
Variable cfg : Config.

Lemma steady_listSubvolumes_loop (dir : string) (entries : list DirEntry) :
  forall acc, steady (free_of f) (listSubvolumes_loop lib env dir entries acc).
Proof.
  induction entries as [|entry rest IH]; intros acc; cbn [listSubvolumes_loop].
  - now apply steady_ret.
  - cbn [bind ret Monad_Proc].
    apply steady_bind; [apply free_of_app | | intros ok; apply IH].
    unfold realIsBtrfsSubvolume, cmd_Run. cbn [bind ret Monad_Proc].
    destruct (IsDir entry); [|now apply steady_ret].
    apply steady_bind; [apply free_of_app | | intros; now apply steady_ret].
    apply steady_ask. intros r. apply f_show.
Qed.

Lemma steady_ReadSnapshotInfo (p : string) :
  steady (free_of f) (ReadSnapshotInfo lib env cfg p).
Proof.
  unfold ReadSnapshotInfo, ReadFile. cbn [bind ret Monad_Proc].
  apply steady_bind; [apply free_of_app | |].
  - apply steady_ask. intros r. apply f_file.
  - intros [data [e|]]; [now apply steady_ret|].
    destruct (xml_Unmarshal lib data) as [snap [e|]]; now apply steady_ret.
Qed.

Lemma steady_GetSnapshots_loop (paths : list string) :
  forall acc, steady (free_of f) (GetSnapshots_loop lib env cfg paths acc).
Proof.
  induction paths as [|p rest IH]; intros acc; cbn [GetSnapshots_loop].
  - now apply steady_ret.
  - cbn [bind ret Monad_Proc].
    apply steady_bind; [apply free_of_app | apply steady_ReadSnapshotInfo|].
    intros [snap [e|]]; [now apply steady_ret | apply IH].
Qed.

Lemma steady_GetSnapshots : steady (free_of f) (GetSnapshots lib env cfg).
Proof.
  unfold GetSnapshots, listSubvolumes, ReadDir. cbn [bind ret Monad_Proc].
  apply steady_bind; [apply free_of_app | |].
  - apply steady_bind; [apply free_of_app | |].
    + apply steady_ask. intros r. apply f_dir.
    + intros [entries [e|]]; [now apply steady_ret|].
      apply steady_bind;
        [apply free_of_app | apply steady_listSubvolumes_loop
        | intros; now apply steady_ret].
  - intros [paths [e|]]; [now apply steady_ret|].
    apply steady_bind; [apply free_of_app | apply steady_GetSnapshots_loop|].
    intros [snaps [e|]]; now apply steady_ret.
Qed.

End SteadyDiscovery.

(** The loop of [GetSnapshots] returns; with an error the list is nil, and
    without one it read the record of each path, once and in order, and
    added the descriptors the records decode to. *)
Lemma GetSnapshots_loop_records (lib : GoLib) (env : Env) (cfg : Config)
    (paths : list string) :
  forall (acc : list Snapshot) (s : State),
  exists res err s',
    GetSnapshots_loop lib env cfg paths acc s = (Val (res, err), s')
    /\ (err <> None -> res = [])
    /\ (err = None ->
        exists datas found,
          s' = logged s (map (record_event lib) (combine paths datas))
          /\ List.length datas = List.length paths
          /\ map (xml_Unmarshal lib) datas = map (fun snap => (snap, None)) found
          /\ res = acc ++ found
          /\ answered_by env (trace s) (map (record_event lib) (combine paths datas))).
Proof.
  induction paths as [|p rest IH]; intros acc s.
  - exists acc, None, s. cbn [GetSnapshots_loop]. run_proc.
    split; [reflexivity|]. split; [congruence|]. intros _.
    exists [], []. cbn. rewrite app_nil_r, logged_nil. auto.
  - cbn [GetSnapshots_loop]. run_proc. rewrite ReadSnapshotInfo_spec. cbv zeta.
    destruct (os_ReadFile env (trace s) (info_path lib p)) as [data [e|]] eqn:Eread;
      cbn [fst snd].
    + eexists. eexists. eexists. split; [reflexivity|].
      split; [reflexivity | congruence].
    + destruct (xml_Unmarshal lib data) as [snap [e|]] eqn:Ex.
      * eexists. eexists. eexists. split; [reflexivity|].
        split; [reflexivity | congruence].
      * destruct (IH (acc ++ [snap]) (logged s [EvReadFile (info_path lib p) data None]))
          as (res & err & s' & Hrun & Herr & Hok).
        exists res, err, s'. split; [exact Hrun|]. split; [exact Herr|].
        intros Hnone. destruct (Hok Hnone) as (datas & found & Hs & Hlen & Hdec & Hres & Hans).
        exists (data :: datas), (snap :: found).
        cbn [combine map List.length record_event fst snd].
        split; [rewrite Hs, logged_logged; reflexivity|].
        split; [now rewrite Hlen|].
        split; [now rewrite Ex, Hdec|].
        split; [rewrite Hres, <- app_assoc; reflexivity|].
        cbn [answered_by]. unfold record_event at 1 2. cbn [fst snd].
        split; [now rewrite Eread | exact Hans].
Qed.

Lemma listSubvolumes_returns (lib : GoLib) (env : Env) (cfg : Config) (s : State) :
  exists paths err s', listSubvolumes lib env cfg s = (Val (paths, err), s').
Proof.
  unfold listSubvolumes. run_proc.
  destruct (os_ReadDir env (trace s) _) as [entries [e|]]; cbn [fst snd]; run_proc.
  - eexists. eexists. eexists. reflexivity.
  - match goal with
    | |- context [listSubvolumes_loop lib env ?d ?en ?acc ?st] =>
        destruct (listSubvolumes_loop_spec lib env d en acc st) as (kept & evs & -> & _)
    end.
    eexists. eexists. eexists. reflexivity.
Qed.

Lemma GetSnapshots_returns (lib : GoLib) (env : Env) (cfg : Config) (s : State) :
  exists snaps err,
    fst (GetSnapshots lib env cfg s) = Val (snaps, err)
    /\ (err <> None -> snaps = []).
Proof.
  unfold GetSnapshots. run_proc.
  destruct (listSubvolumes_returns lib env cfg s) as (paths & err & s1 & ->).
  destruct err as [e|].
  - eexists. eexists. split; reflexivity.
  - destruct (GetSnapshots_loop_records lib env cfg paths [] s1)
      as (res & err & s2 & -> & Herr & _).
    destruct err as [e|].
    + eexists. eexists. split; reflexivity.
    + eexists. eexists. split; [reflexivity | congruence].
Qed.

(** X6.  [GetSnapshots] always returns (it never exits the process) and
    keeps the dry-run flag.  All it does is list a directory, probe
    subvolumes with [btrfs subvolume show] and read files: it runs no other
    command and prints nothing.  Whenever it returns an error, the list it
    returns is nil. *)
Theorem GetSnapshots_read_only (lib : GoLib) (env : Env) (cfg : Config) (s : State) :
  exists snaps err evs,
    GetSnapshots lib env cfg s = (Val (snaps, err), logged s evs)
    /\ free_of outside_discovery evs
    /\ (err <> None -> snaps = []).
Proof.
  destruct (steady_GetSnapshots outside_discovery
              ltac:(reflexivity) ltac:(reflexivity) ltac:(reflexivity)
              lib env cfg s) as (evs & Hs & Hf).
  destruct (GetSnapshots_returns lib env cfg s) as (snaps & err & Hr & Herr).
  exists snaps, err, evs. split; [|auto].
  destruct (GetSnapshots lib env cfg s) as [o s']. cbn [fst snd] in Hs, Hr.
  now subst.
Qed.

(** X7.  A discovery that succeeds reads, after the listing, the record
    [info.xml] beside each candidate path, once each and in the order of the
    candidates, and nothing else; every record was read and decoded without
    an error, and the catalog is the sorted list of the descriptors the
    records decode to, one for each candidate. *)
Theorem GetSnapshots_one_record_per_candidate (lib : GoLib) (env : Env)
    (cfg : Config) (s s1 s' : State) (paths : list string) (snaps : list Snapshot) :
  listSubvolumes lib env cfg s = (Val (paths, None), s1) ->
  GetSnapshots lib env cfg s = (Val (snaps, None), s') ->
  exists datas discovered,
    s' = logged s1 (map (record_event lib) (combine paths datas))
    /\ answered_by env (trace s1) (map (record_event lib) (combine paths datas))
    /\ List.length datas = List.length paths
    /\ map (xml_Unmarshal lib) datas = map (fun snap => (snap, None)) discovered
    /\ snaps = sort_Slice lib snapshot_less discovered.
Proof.
  intros Hlist Hrun. unfold GetSnapshots in Hrun. run_proc in Hrun.
  rewrite Hlist in Hrun.
  destruct (GetSnapshots_loop_records lib env cfg paths [] s1)
    as (res & err & s2 & Hloop & _ & Hok).
  rewrite Hloop in Hrun. destruct err as [e|]; [discriminate Hrun|].
  injection Hrun as <- <-.
  destruct (Hok eq_refl) as (datas & found & Hs & Hlen & Hdec & Hres & Hans).
  exists datas, found. cbn [app] in Hres. subst res. auto.
Qed.

Lemma GetSnapshots_one_record_per_candidate_witness :
  let env := scripted ex_script in
  let paths := ["/btrfs/@snapshots/7/snapshot"; "/btrfs/@snapshots/abc/snapshot";
                "/btrfs/@snapshots/2/snapshot"] in
  let s1 := snd (listSubvolumes ex_lib env ex_cfg init_state) in
  exists datas discovered,
    snd (GetSnapshots ex_lib env ex_cfg init_state)
    = logged s1 (map (record_event ex_lib) (combine paths datas))
    /\ answered_by env (trace s1) (map (record_event ex_lib) (combine paths datas))
    /\ List.length datas = List.length paths
    /\ map (xml_Unmarshal ex_lib) datas = map (fun snap => (snap, None)) discovered
    /\ fst (ex_Unmarshal "7") :: fst (ex_Unmarshal "2") :: [fst (ex_Unmarshal "abc")]
       = sort_Slice ex_lib snapshot_less discovered.
Proof.
  exact (GetSnapshots_one_record_per_candidate ex_lib (scripted ex_script) ex_cfg
           init_state _ _ _ _ eq_refl eq_refl).
Defined.

(** X8.  The comparison [GetSnapshots] hands to [sort.Slice] is a strict weak
    order, as [sort.Slice] asks of it.  It puts a descriptor before another
    exactly when its identifier is the greater number, or is a number while
    the other is none; so two descriptors whose identifiers are no numbers
    are never put in an order, and neither are two with equal numbers. *)
Theorem snapshot_less_is_descending_id_order :
  strict_weak_order snapshot_less
  /\ (forall x y, snapshot_less y x = false <-> id_order x y)
  /\ (forall x y, unparsable x = true -> unparsable y = true ->
        snapshot_less x y = false /\ snapshot_less y x = false)
  /\ (forall x y, unparsable x = false -> unparsable y = true ->
        snapshot_less x y = true).
Proof.
  split; [exact snapshot_less_strict_weak|]. split; [|split].
  - intros x y. split; [apply snapshot_less_id_order|].
    unfold snapshot_less, id_order.
    destruct (strconv_Atoi (ID x)), (strconv_Atoi (ID y)); try easy.
    rewrite Z.gtb_ltb, Z.ltb_ge. auto.
  - intros x y. unfold unparsable, snapshot_less.
    destruct (strconv_Atoi (ID x)), (strconv_Atoi (ID y)); easy.
  - intros x y. unfold unparsable, snapshot_less.
    destruct (strconv_Atoi (ID x)), (strconv_Atoi (ID y)); easy.
Qed.

(** ** The selection surface *)

Lemma slice_index_In {A} (xs : list A) (i : Z) (x : A) :
  slice_index xs i = Some x -> In x xs.
Proof.
  unfold slice_index. destruct (i <? 0)%Z; [discriminate|]. apply nth_error_In.
Qed.

(** What one message changes of the model: never the catalog; the selected
    identifier only on enter, the error only on a cancel key, and both only
    together with [tea.Quit]. *)
Lemma Update_fields (W : ListWidget) (m m' : model W) (msg : Msg) (c : Cmd) :
  Update W m msg = Some (m', c) ->
  m_snapshots m' = m_snapshots m
  /\ ((m_err m' = m_err m /\ m_selectedID m' = m_selectedID m)
      \/ (c = CmdQuit /\ m_err m' = m_err m
          /\ exists snap, In snap (m_snapshots m) /\ m_selectedID m' = ID snap)
      \/ (c = CmdQuit /\ m_err m' = Some "" /\ m_selectedID m' = m_selectedID m
          /\ exists key, msg = KeyMsg key /\ is_cancel_key key = true)).
Proof.
  unfold Update, Update_list. intros H.
  destruct msg as [w h|key|].
  - injection H as <- <-. cbn. auto.
  - destruct (String.eqb key "enter").
    + destruct (Nat.ltb 0 (List.length (m_snapshots m))).
      * destruct (slice_index (m_snapshots m) (list_Index W (m_list m))) as [snap|] eqn:Hi;
          [|discriminate H].
        injection H as <- <-. cbn. split; [reflexivity|]. right. left.
        split; [reflexivity|]. split; [reflexivity|].
        exists snap. split; [|reflexivity].
        exact (slice_index_In _ _ _ Hi).
      * destruct (list_Update W (KeyMsg key) (m_list m)) as [l c']. injection H as <- <-.
        cbn. auto.
    + destruct (is_cancel_key key) eqn:Hcancel.
      * injection H as <- <-. cbn. split; [reflexivity|]. right. right.
        do 3 (split; [reflexivity|]). exists key. auto.
      * destruct (list_Update W (KeyMsg key) (m_list m)) as [l c']. injection H as <- <-.
        cbn. auto.
  - destruct (list_Update W OtherMsg (m_list m)) as [l c']. injection H as <- <-.
    cbn. auto.
Qed.

Lemma still_open_fields (W : ListWidget) (pre : list Msg) :
  forall m0 m : model W,
  still_open W m0 pre = Some m ->
  m_snapshots m = m_snapshots m0 /\ m_err m = m_err m0
  /\ m_selectedID m = m_selectedID m0.
Proof.
  induction pre as [|msg pre IH]; intros m0 m H; cbn [still_open] in H.
  - injection H as <-. auto.
  - destruct (Update W m0 msg) as [[m1 c]|] eqn:Hu; [|discriminate H].
    destruct (Update_fields W m0 m1 msg c Hu) as (Hs & Hf).
    destruct c; try discriminate H;
      (destruct Hf as [(He & Hi) | [(Hc & _) | (Hc & _)]]; try discriminate Hc;
       destruct (IH m1 m H) as (H1 & H2 & H3);
       rewrite H1, H2, H3; auto).
Qed.

Lemma tea_loop_still_open (W : ListWidget) (rest : list Msg) (pre : list Msg) :
  forall (m0 m : model W) (consumed : list Msg),
  still_open W m0 pre = Some m ->
  tea_loop W m0 (pre ++ rest) consumed = tea_loop W m rest (consumed ++ pre).
Proof.
  induction pre as [|msg pre IH]; intros m0 m consumed H; cbn [still_open] in H.
  - injection H as <-. now rewrite app_nil_r.
  - cbn [app tea_loop].
    destruct (Update W m0 msg) as [[m1 c]|]; [|discriminate H].
    destruct c; try discriminate H;
      rewrite (IH m1 m _ H), <- app_assoc; reflexivity.
Qed.

(** The model the event loop ends with, when it ends without an error of
    its own. *)
Lemma tea_loop_result (W : ListWidget) (snaps : list Snapshot) (msgs : list Msg) :
  forall (m m' : model W) (consumed consumed' : list Msg),
  m_snapshots m = snaps -> m_err m = None -> m_selectedID m = "" ->
  tea_loop W m msgs consumed = ((m', None), consumed') ->
  (m_err m' = Some ""
   /\ exists pre key, consumed' = consumed ++ pre ++ [KeyMsg key]
                      /\ is_cancel_key key = true)
  \/ (m_err m' = None
      /\ (m_selectedID m' = "" \/ In (m_selectedID m') (map ID snaps))).
Proof.
  induction msgs as [|msg rest IH]; intros m m' consumed consumed' Hs He Hi H;
    cbn [tea_loop] in H; [discriminate H|].
  destruct (Update W m msg) as [[m1 c]|] eqn:Hu; [|discriminate H].
  destruct (Update_fields W m m1 msg c Hu) as (Hs1 & Hf).
  assert (Hquit : c = CmdQuit -> m1 = m' -> consumed' = consumed ++ [msg] ->
                  (m_err m' = Some ""
                   /\ exists pre key, consumed' = consumed ++ pre ++ [KeyMsg key]
                                      /\ is_cancel_key key = true)
                  \/ (m_err m' = None
                      /\ (m_selectedID m' = "" \/ In (m_selectedID m') (map ID snaps)))).
  { intros _ <- ->.
    destruct Hf as [(H1 & H2) | [(_ & H1 & snap & Hin & H2)
                                | (_ & H1 & _ & key & -> & Hkey)]].
    - right. rewrite H1, H2. auto.
    - right. rewrite H1, H2. split; [exact He|]. right.
      apply in_map. now rewrite <- Hs.
    - left. split; [exact H1|]. exists [], key. auto. }
  assert (Hstep : c <> CmdQuit ->
                  m_snapshots m1 = snaps /\ m_err m1 = None /\ m_selectedID m1 = "").
  { intros Hc.
    destruct Hf as [(H1 & H2) | [(Hq & _) | (Hq & _)]]; try contradiction.
    rewrite Hs1, H1, H2. auto. }
  assert (Hrest : c <> CmdQuit ->
                  tea_loop W m1 rest (consumed ++ [msg]) = ((m', None), consumed') ->
                  (m_err m' = Some ""
                   /\ exists pre key, consumed' = consumed ++ pre ++ [KeyMsg key]
                                      /\ is_cancel_key key = true)
                  \/ (m_err m' = None
                      /\ (m_selectedID m' = "" \/ In (m_selectedID m') (map ID snaps)))).
  { intros Hc Hloop. destruct (Hstep Hc) as (A1 & A2 & A3).
    destruct (IH m1 m' _ consumed' A1 A2 A3 Hloop)
      as [(Herr & pre & key & Hcons & Hkey) | Hok]; [left | now right].
    split; [exact Herr|]. exists (msg :: pre), key.
    rewrite Hcons, <- app_assoc. auto. }
  destruct c.
  - apply Hrest; [discriminate | exact H].
  - injection H as H1 H2. apply Hquit; congruence.
  - apply Hrest; [discriminate | exact H].
Qed.

(** X9.  When the user presses enter while the selection is open and the
    index the list reports ([m.list.Index()]) is a position of the catalog,
    [RunUI] returns the identifier of the catalog entry at that position,
    [m.snapshots[m.list.Index()].ID], and no error; the messages after the
    key are not consumed.  The entry is looked up in the whole catalog, for
    any list component: nothing here ties it to the item the list shows
    under its cursor, which is another one when the list shows a part of
    the catalog only. *)
Theorem RunUI_enter_selects (W : ListWidget) (env : Env) (snaps : list Snapshot)
    (s : State) (pre post : list Msg) (m : model W) (snap : Snapshot) :
  tea_start env (trace s) = None ->
  tea_msgs env (trace s) = pre ++ KeyMsg "enter" :: post ->
  still_open W (InitialModel W snaps) pre = Some m ->
  slice_index snaps (list_Index W (m_list m)) = Some snap ->
  RunUI W env snaps s
  = (Val (ID snap, None), logged s [EvTea (pre ++ [KeyMsg "enter"]) None]).
Proof.
  intros Hstart Hmsgs Hopen Hidx.
  destruct (still_open_fields W pre _ m Hopen) as (Hs & He & _).
  cbn [InitialModel m_snapshots m_err] in Hs, He.
  unfold RunUI, tea_Run. run_proc. rewrite Hstart, Hmsgs.
  rewrite (tea_loop_still_open W _ pre _ m [] Hopen).
  cbn [app tea_loop Update]. cbn [String.eqb Ascii.eqb Bool.eqb].
  rewrite Hs, Hidx.
  assert (Hlen : Nat.ltb 0 (List.length snaps) = true).
  { apply slice_index_In in Hidx. destruct snaps; [destruct Hidx | reflexivity]. }
  rewrite Hlen. cbn [fst snd m_err]. rewrite He. reflexivity.
Qed.

Lemma RunUI_enter_selects_witness :
  let env := scripted (with_msgs [WindowSizeMsg 80 24; KeyMsg "down"; KeyMsg "enter";
                                  KeyMsg "q"] ex_script) in
  let snaps := map (fun n => fst (ex_Unmarshal n)) ["7"; "2"; "abc"] in
  RunUI cursor_list env snaps init_state
  = (Val (ID (fst (ex_Unmarshal "2")), None),
     logged init_state
       [EvTea ([WindowSizeMsg 80 24; KeyMsg "down"] ++ [KeyMsg "enter"]) None]).
Proof.
  exact (RunUI_enter_selects cursor_list
           (scripted (with_msgs [WindowSizeMsg 80 24; KeyMsg "down"; KeyMsg "enter";
                                 KeyMsg "q"] ex_script))
           (map (fun n => fst (ex_Unmarshal n)) ["7"; "2"; "abc"]) init_state
           [WindowSizeMsg 80 24; KeyMsg "down"] [KeyMsg "q"] _ _
           eq_refl eq_refl eq_refl eq_refl).
Defined.

(** X10.  [RunUI] runs the terminal program once and does nothing else.  It
    returns an error of the terminal program with the empty identifier.  It
    exits the process only with status 1, and only when the last message the
    terminal program consumed is a cancel key (ctrl+c, esc, q).  The
    identifier it returns without an error is the identifier of a snapshot
    of the catalog it was given, or empty when nothing was selected. *)
Theorem RunUI_returns_catalog_id (W : ListWidget) (env : Env)
    (snaps : list Snapshot) (s : State) :
  exists msgs err,
    snd (RunUI W env snaps s) = logged s [EvTea msgs err]
    /\ match fst (RunUI W env snaps s) with
       | Exited code =>
           code = 1%Z /\ err = None
           /\ exists pre key, msgs = pre ++ [KeyMsg key] /\ is_cancel_key key = true
       | Val (id, Some e) => id = "" /\ err = Some e
       | Val (id, None) => err = None /\ (id = "" \/ In id (map ID snaps))
       end.
Proof.
  unfold RunUI, tea_Run. run_proc.
  destruct (tea_start env (trace s)) as [e|].
  - cbn [fst snd]. eexists. eexists. split; [reflexivity|]. cbn. auto.
  - destruct (tea_loop W (InitialModel W snaps) (tea_msgs env (trace s)) [])
      as [[m' [e|]] consumed] eqn:Hloop; cbn [fst snd].
    + eexists. eexists. split; [reflexivity|]. cbn. auto.
    + destruct (tea_loop_result W snaps _ (InitialModel W snaps) m' [] consumed
                  eq_refl eq_refl eq_refl Hloop)
        as [(Herr & pre & key & Hcons & Hkey) | (Herr & Hid)];
        rewrite Herr; cbn [is_err];
        eexists; eexists; (split; [reflexivity|]); cbn [fst].
      * split; [reflexivity|]. split; [reflexivity|].
        exists pre, key. cbn [app] in Hcons. auto.
      * auto.
Qed.

(** ** The startup *)

Lemma startup_events_free (f : Event -> bool) (evs : list Event) :
  (forall e, is_startup_event e = true -> f e = false) ->
  forallb is_startup_event evs = true -> free_of f evs.
Proof.
  intros Hf. unfold free_of. induction evs as [|e evs IH]; cbn; [reflexivity|].
  intros H. apply andb_true_iff in H. destruct H as (He & Hevs).
  now rewrite (Hf e He), IH.
Qed.

(** The startup appends events of its own only; when it returns, the
    command line was accepted, the process runs as root, and the dry-run
    flag of package btrfs is that of the command line. *)
Lemma startup_spec (env : Env) (s : State) :
  exists pre,
    trace (snd (startup env s)) = trace s ++ pre
    /\ forallb is_startup_event pre = true
    /\ (forall cfg, fst (startup env s) = Val cfg ->
          dryRun (snd (startup env s)) = flag_dry_run env
          /\ passed_root_check pre).
Proof.
  unfold startup, cmd_Config, loadConfig, ParseConfig, CheckIfRoot, cmd_DryRun,
    Must, log_Fatal, SetDryRun, passed_root_check.
  run_proc.
  destruct (cobra_Execute env (trace s)) as [e|]; run_proc.
  { eexists. rewrite <- app_assoc. split; [reflexivity|]. split; [reflexivity|].
    intros cfg H. discriminate H. }
  destruct (String.eqb (flag_config env) ""); cbn [negb]; run_proc.
  - match goal with
    | |- context [(?u =? 0)%Z] =>
        set (uid := u); destruct (Z.eqb_spec uid 0) as [Hu|Hu]
    end; cbn [negb]; run_proc; rewrite <- ?app_assoc; cbn [app];
      eexists; (split; [reflexivity|]); (split; [reflexivity|]); intros cfg H.
    + split; [reflexivity|]. rewrite Hu. cbn. auto.
    + discriminate H.
  - destruct (filepath_Abs env _ (flag_config env)) as [absPath [e|]];
      cbn [fst snd]; run_proc.
    { eexists. rewrite <- ?app_assoc. cbn [app].
      split; [reflexivity|]. split; [reflexivity|]. intros cfg H. discriminate H. }
    destruct (toml_DecodeFile env _ absPath) as [config err]; cbn [fst snd].
    destruct (is_err err); run_proc;
      match goal with
      | |- context [(?u =? 0)%Z] =>
        set (uid := u); destruct (Z.eqb_spec uid 0) as [Hu|Hu]
      end; cbn [negb]; run_proc; rewrite <- ?app_assoc; cbn [app];
      eexists; (split; [reflexivity|]); (split; [reflexivity|]); intros cfg H;
      try discriminate H;
      (split; [reflexivity|]); rewrite Hu; cbn; auto 6.
Qed.

(** X11.  [cmd.Config] runs no command.  With an empty path it returns the
    zero configuration and touches nothing.  With a path it exits, with
    status 1 and "Invalid config path" on the standard error, only when the
    path cannot be made absolute; a file that does not decode is no error:
    the default configuration (@, @snapshots, /btrfs, no device) is returned
    in its place and nothing is printed. *)
Theorem cmd_Config_fallback (env : Env) (s : State) :
  exists evs,
    snd (cmd_Config env s) = logged s evs
    /\ free_of is_command_event evs
    /\ match fst (cmd_Config env s) with
       | Exited code =>
           code = 1%Z /\ flag_config env <> ""
           /\ exists absPath e,
                evs = [EvAbs (flag_config env) absPath (Some e);
                       EvStderr ("Invalid config path: " +++ e +++ LF)]
       | Val cfg =>
           (flag_config env = "" /\ cfg = zeroConfig /\ evs = [])
           \/ (flag_config env <> ""
               /\ exists absPath config err,
                    evs = [EvAbs (flag_config env) absPath None;
                           EvDecodeFile absPath config err]
                    /\ cfg = if is_err err then DefaultConfig else config)
       end.
Proof.
  unfold cmd_Config, loadConfig, ParseConfig.
  destruct (String.eqb_spec (flag_config env) "") as [Hempty|Hpath]; cbn [negb].
  - exists []. run_proc. rewrite logged_nil.
    split; [reflexivity|]. split; [reflexivity|]. left. auto.
  - run_proc.
    destruct (filepath_Abs env (trace s) (flag_config env)) as [absPath [e|]];
      cbn [fst snd]; run_proc.
    + eexists. unfold logged. cbn [trace dryRun]. rewrite <- app_assoc.
      split; [reflexivity|]. split; [reflexivity|].
      split; [reflexivity|]. split; [exact Hpath|].
      exists absPath, e. reflexivity.
    + destruct (toml_DecodeFile env _ absPath) as [config err] eqn:Edec;
        cbn [fst snd].
      exists [EvAbs (flag_config env) absPath None; EvDecodeFile absPath config err].
      unfold logged. cbn [trace dryRun].
      destruct (is_err err) eqn:Herr; run_proc; rewrite <- app_assoc;
        (split; [reflexivity|]); (split; [reflexivity|]);
        right; (split; [exact Hpath|]);
        exists absPath, config, err; rewrite Herr; auto.
Qed.

(** ** What follows the startup *)

Lemma silent_Confirm (env : Env) (prompt : string) : silent (Confirm env prompt).
Proof.
  unfold Confirm, fmt_Print. cbn [bind ret Monad_Proc]. silent_steps.
Qed.

Lemma extends_confirm_and_rollback (lib : GoLib) (env : Env) (cfg : Config)
    (snapshotID : string) :
  appends (fun _ => True) (confirm_and_rollback lib env cfg snapshotID).
Proof.
  unfold confirm_and_rollback, fmt_Print. cbn [bind ret Monad_Proc].
  apply appends_bind; [auto | apply extends_silent, silent_ClearScreen|].
  intros _. apply appends_bind; [auto | |].
  - destruct (negb (cmd_DryRun env)); [|now apply appends_ret].
    apply appends_bind; [auto | apply extends_silent, silent_Confirm|].
    intros b. apply appends_bind; [auto | apply extends_emit|].
    intros _. now apply appends_ret.
  - intros [|]; [|now apply appends_ret].
    apply appends_bind; [auto | apply extends_Rollback|].
    intros _. now apply appends_ret.
Qed.

Lemma select_and_rollback_split (lib : GoLib) (W : ListWidget) (env : Env)
    (cfg : Config) (snaps : list Snapshot) (s : State) :
  select_and_rollback lib W env cfg snaps s
  = bindP (RunUI W env snaps)
      (fun r => bindP (Must (snd r))
                  (fun _ => confirm_and_rollback lib env cfg (fst r))) s.
Proof.
  unfold select_and_rollback, confirm_and_rollback. cbn [bind ret Monad_Proc].
  apply bindP_ext. intros [id err] s'. reflexivity.
Qed.

Lemma extends_after_startup (lib : GoLib) (W : ListWidget) (env : Env)
    (cfg : Config) :
  appends (fun _ => True) (after_startup lib W env cfg).
Proof.
  unfold after_startup. cbn [bind ret Monad_Proc].
  apply appends_bind; [auto | apply extends_silent, silent_MountSubvol|].
  intros err. apply appends_bind; [auto | apply extends_silent, silent_Must|].
  intros _. apply appends_bind; [auto | apply extends_silent, silent_GetSnapshots|].
  intros [snaps err']. apply appends_bind; [auto | apply extends_silent, silent_Must|].
  intros _ s. rewrite select_and_rollback_split. revert s.
  apply appends_bind; [auto | apply extends_silent, silent_RunUI|].
  intros r. apply appends_bind; [auto | apply extends_silent, silent_Must|].
  intros _. apply extends_confirm_and_rollback.
Qed.

(** X12.  [main] runs no command, not even the probe of the mount table,
    unless the command line was accepted and the effective user is root:
    the events of a run are [pre ++ post], with no command in [pre], and in
    [pre] the success of [RootCmd.Execute] and the user identifier 0 unless
    [post] is empty. *)
Theorem main_needs_root (lib : GoLib) (W : ListWidget) (env : Env) (s : State) :
  exists pre post,
    trace (snd (main lib W env s)) = trace s ++ pre ++ post
    /\ free_of is_command_event pre
    /\ (post = [] \/ passed_root_check pre).
Proof.
  rewrite main_split. unfold bindP.
  destruct (startup_spec env s) as (pre & Ht & Hk & Hval).
  assert (Hfree : free_of is_command_event pre).
  { apply startup_events_free; [|exact Hk].
    intros [] H; try discriminate H; reflexivity. }
  destruct (startup env s) as [[cfg|code] s1]; cbn [fst snd] in Ht, Hval |- *.
  - destruct (extends_after_startup lib W env cfg s1) as (post & Hp & _).
    exists pre, post. rewrite Hp, Ht, app_assoc.
    split; [reflexivity|]. split; [exact Hfree|]. right.
    exact (proj2 (Hval cfg eq_refl)).
  - exists pre, []. rewrite app_nil_r. auto.
Qed.

(** X13.  When the startup gives a configuration without a device and the
    mountpoint is reported as not mounted, [main] stops at the mount: it
    logs "device not specified, unable to mount <mountpoint>" and exits with
    status 1, the probe being the only command it ran.  This is the run on a
    system where the volume is not mounted and the configuration file does
    not decode. *)
Theorem main_without_device (lib : GoLib) (W : ListWidget) (env : Env)
    (s s1 : State) (cfg : Config) :
  startup env s = (Val cfg, s1) ->
  Dev cfg = None \/ Dev cfg = Some "" ->
  reported_unmounted (probe_answer env cfg s1) = true ->
  main lib W env s
  = (Exited 1,
     logged s1 [probe_event env cfg s1;
                EvLogFatal ("device not specified, unable to mount "
                            +++ Mountpoint cfg)]).
Proof.
  intros Hstart Hdev Hun. rewrite main_split. unfold bindP at 1. rewrite Hstart.
  unfold after_startup. run_proc.
  rewrite (MountSubvol_unmounted_no_device env cfg s1 Hun Hdev).
  unfold device_not_specified. cbn [Must]. run_proc.
  unfold logged. cbn [trace dryRun]. now rewrite <- app_assoc.
Qed.

Lemma main_without_device_witness :
  let s1 := snd (startup ex_env_no_config init_state) in
  main ex_lib cursor_list ex_env_no_config init_state
  = (Exited 1,
     logged s1 [probe_event ex_env_no_config DefaultConfig s1;
                EvLogFatal ("device not specified, unable to mount " +++ "/btrfs")]).
Proof.
  exact (main_without_device ex_lib cursor_list ex_env_no_config init_state _
           DefaultConfig eq_refl (or_introl eq_refl) eq_refl).
Defined.

(** ** The dry run of the whole program *)

Lemma steady_Must (f : Event -> bool) (err : error) :
  (forall text, f (EvLogFatal text) = false) -> steady (free_of f) (Must err).
Proof.
  intros Hf. unfold Must, log_Fatal. cbn [bind ret Monad_Proc].
  destruct err as [e|]; [|now apply steady_ret].
  apply steady_bind; [apply free_of_app | now apply steady_emit|].
  intros _. now apply steady_exit.
Qed.

Lemma steady_MountSubvol (env : Env) (cfg : Config) :
  steady (free_of changes_or_asks) (MountSubvol env cfg).
Proof.
  unfold MountSubvol, cmd_CombinedOutput, cmd_Run, fmt_Print, device_not_specified.
  cbn [bind ret Monad_Proc]. steady_steps.
Qed.

Lemma steady_RunUI (W : ListWidget) (env : Env) (snaps : list Snapshot) :
  steady (free_of changes_or_asks) (RunUI W env snaps).
Proof.
  unfold RunUI, tea_Run. cbn [bind ret Monad_Proc]. steady_steps.
Qed.

Lemma steady_ClearScreen (f : Event -> bool) (env : Env) :
  (forall r, f (EvRun ["clear"] r) = false) -> steady (free_of f) (ClearScreen env).
Proof.
  intros Hf. unfold ClearScreen, cmd_Run. cbn [bind ret Monad_Proc].
  apply steady_bind; [apply free_of_app | now apply steady_ask|].
  intros _. now apply steady_ret.
Qed.

Lemma simulated_bind {A B} (P : list Event -> Prop) (c : Proc A) (k : A -> Proc B) :
  (forall a b, P a -> P b -> P (a ++ b)) ->
  steady P c -> (forall a, simulated P (k a)) -> simulated P (bindP c k).
Proof.
  intros Hp Hc Hk s Hdry. destruct (Hc s) as (evs1 & Hs & H1). unfold bindP.
  destruct (c s) as [[a|code] s1]; cbn [snd] in Hs |- *; subst s1.
  - destruct (Hk a (logged s evs1) Hdry) as (evs2 & Ht & H2).
    exists (evs1 ++ evs2). rewrite Ht. cbn [logged trace].
    rewrite app_assoc. auto.
  - exists evs1. auto.
Qed.

(** [Rollback] returns, and in dry-run mode it runs none of its commands. *)
Lemma Rollback_returns (lib : GoLib) (env : Env) (cfg : Config)
    (snapshotID : string) (s : State) :
  exists r evs,
    Rollback lib env cfg snapshotID s = (Val r, logged s evs)
    /\ (dryRun s = true -> free_of changes_or_asks evs).
Proof.
  destruct s as [h dry]. unfold Rollback, logged. run_proc.
  destruct (os_Stat env h (oldSubvolMainPath lib cfg)) as [e0|];
    cbn [is_err negb]; destruct dry; run_proc; rewrite <- ?app_assoc; cbn [app];
    rollback_cases env;
    eexists; eexists; (split; [reflexivity|]); intros Hd;
    try discriminate Hd; reflexivity.
Qed.

Lemma simulated_confirm_and_rollback (lib : GoLib) (env : Env) (cfg : Config)
    (snapshotID : string) :
  flag_dry_run env = true ->
  simulated (free_of changes_or_asks) (confirm_and_rollback lib env cfg snapshotID).
Proof.
  intros Hflag. unfold confirm_and_rollback, cmd_DryRun. rewrite Hflag.
  cbn [negb bind ret Monad_Proc].
  apply simulated_bind;
    [apply free_of_app | apply steady_ClearScreen; reflexivity|].
  intros _ s Hdry. unfold bindP at 1. unfold retP at 1.
  destruct (Rollback_returns lib env cfg snapshotID s) as (r & evs & Hr & Hsim).
  unfold bindP. rewrite Hr. exists evs. cbn [retP snd logged trace]. auto.
Qed.

Lemma simulated_after_startup (lib : GoLib) (W : ListWidget) (env : Env)
    (cfg : Config) :
  flag_dry_run env = true ->
  simulated (free_of changes_or_asks) (after_startup lib W env cfg).
Proof.
  intros Hflag. unfold after_startup. cbn [bind ret Monad_Proc].
  apply simulated_bind; [apply free_of_app | apply steady_MountSubvol|].
  intros err.
  apply simulated_bind; [apply free_of_app | apply steady_Must; reflexivity|].
  intros _.
  apply simulated_bind;
    [apply free_of_app | apply steady_GetSnapshots; reflexivity|].
  intros [snaps err'].
  apply simulated_bind; [apply free_of_app | apply steady_Must; reflexivity|].
  intros _ s. rewrite select_and_rollback_split. revert s.
  apply simulated_bind; [apply free_of_app | apply steady_RunUI|].
  intros r.
  apply simulated_bind; [apply free_of_app | apply steady_Must; reflexivity|].
  intros _. now apply simulated_confirm_and_rollback.
Qed.

(** X14.  With the dry-run flag on the command line, a run of [main] holds
    none of the commands of the rollback (no deletion, no move, no snapshot,
    no default subvolume), whatever the state of the system and whatever the
    user does, and [Confirm] is never called: the terminal is neither put
    into raw mode nor read.  The mount of [MountSubvol] is no part of this:
    it runs in a dry run too. *)
Theorem main_dry_run_no_rollback_command (lib : GoLib) (W : ListWidget) (env : Env)
    (s : State) :
  flag_dry_run env = true ->
  exists evs,
    trace (snd (main lib W env s)) = trace s ++ evs
    /\ free_of changes_or_asks evs.
Proof.
  intros Hflag. rewrite main_split. unfold bindP.
  destruct (startup_spec env s) as (pre & Ht & Hk & Hval).
  assert (Hfree : free_of changes_or_asks pre).
  { apply startup_events_free; [|exact Hk].
    intros [] H; try discriminate H; reflexivity. }
  destruct (startup env s) as [[cfg|code] s1]; cbn [fst snd] in Ht, Hval |- *.
  - destruct (Hval cfg eq_refl) as (Hdry & _). rewrite Hflag in Hdry.
    destruct (simulated_after_startup lib W env cfg Hflag s1 Hdry) as (evs & He & Hf).
    exists (pre ++ evs). rewrite He, Ht, app_assoc.
    split; [reflexivity|]. now apply free_of_app.
  - exists pre. auto.
Qed.

Lemma main_dry_run_no_rollback_command_witness :
  let env := scripted (with_dry_run true (with_probe ("", None) ex_script)) in
  exists evs,
    trace (snd (main ex_lib cursor_list env init_state)) = [] ++ evs
    /\ free_of changes_or_asks evs.
Proof.
  exact (main_dry_run_no_rollback_command ex_lib cursor_list
           (scripted (with_dry_run true (with_probe ("", None) ex_script)))
           init_state eq_refl).
Defined.

(** ** After the selection *)

Lemma never_exits_bind {A B} (c : Proc A) (k : A -> Proc B) :
  never_exits c -> (forall a, never_exits (k a)) -> never_exits (bindP c k).
Proof.
  intros Hc Hk s. destruct (Hc s) as (a & Ha). unfold bindP.
  destruct (c s) as [[a'|code] s1]; cbn [fst] in Ha; [|discriminate Ha].
  apply Hk.
Qed.

Lemma never_exits_ret {A} (a : A) : never_exits (retP a).
Proof. intros s. now exists a. Qed.

Lemma never_exits_ask {A} (q : list Event -> A) (ev : A -> Event) :
  never_exits (ask q ev).
Proof. intros s. now exists (q (trace s)). Qed.

Lemma never_exits_emit (e : Event) : never_exits (emit e).
Proof. intros s. now exists tt. Qed.

Lemma never_exits_get_dryRun : never_exits get_dryRun.
Proof. intros s. now exists (dryRun s). Qed.

Ltac never_exits_steps :=
  repeat first
    [ apply never_exits_ret
    | apply never_exits_get_dryRun
    | apply never_exits_emit
    | apply never_exits_ask
    | apply never_exits_bind; [|intros]
    | match goal with
      | |- never_exits (let '(_, _) := ?x in _) => destruct x
      | |- never_exits (match ?x with _ => _ end) => destruct x
      | |- never_exits (if ?x then _ else _) => destruct x
      end ].

Lemma never_exits_confirm_and_rollback (lib : GoLib) (env : Env) (cfg : Config)
    (snapshotID : string) :
  never_exits (confirm_and_rollback lib env cfg snapshotID).
Proof.
  unfold confirm_and_rollback, ClearScreen, Confirm, Rollback, Stat, cmd_Run, fmt_Print.
  cbn [bind ret Monad_Proc]. never_exits_steps.
Qed.

Lemma steady_confirm_and_rollback (lib : GoLib) (env : Env) (cfg : Config)
    (snapshotID : string) :
  steady (free_of is_fatal) (confirm_and_rollback lib env cfg snapshotID).
Proof.
  unfold confirm_and_rollback, ClearScreen, Confirm, Rollback, Stat, cmd_Run, fmt_Print.
  cbn [bind ret Monad_Proc]. steady_steps.
Qed.

(** X15.  Once a snapshot is selected, [main] ends with status 0 whatever
    happens then: whether the user confirms or declines, and whether
    [Rollback] returns nil or an error.  The result of [Rollback] is not
    looked at: nothing is logged as fatal after the selection, and the
    process does not exit with a failure status. *)
Theorem main_ignores_rollback_result (lib : GoLib) (W : ListWidget) (env : Env)
    (s s1 s2 s3 s4 : State) (cfg : Config) (snaps : list Snapshot) (id : string) :
  startup env s = (Val cfg, s1) ->
  MountSubvol env cfg s1 = (Val None, s2) ->
  GetSnapshots lib env cfg s2 = (Val (snaps, None), s3) ->
  RunUI W env snaps s3 = (Val (id, None), s4) ->
  exists evs,
    main lib W env s = (Val tt, logged s4 evs)
    /\ free_of is_fatal evs
    /\ exit_status (fst (main lib W env s)) = 0%Z.
Proof.
  intros Hstart Hmount Hget Hrun.
  assert (Hmain : main lib W env s = confirm_and_rollback lib env cfg id s4).
  { rewrite main_split. unfold bindP at 1. rewrite Hstart.
    unfold after_startup. run_proc. rewrite Hmount. cbn [Must]. run_proc.
    rewrite Hget. cbn [Must]. run_proc.
    rewrite select_and_rollback_split. unfold bindP at 1. rewrite Hrun.
    cbn [fst snd Must]. reflexivity. }
  rewrite Hmain.
  destruct (steady_confirm_and_rollback lib env cfg id s4) as (evs & Hs & Hf).
  destruct (never_exits_confirm_and_rollback lib env cfg id s4) as ([] & Ha).
  exists evs.
  destruct (confirm_and_rollback lib env cfg id s4) as [o s'].
  cbn [fst snd] in Hs, Ha |- *. subst. auto.
Qed.

Lemma main_ignores_rollback_result_witness :
  let env := scripted ex_script_mv_fails in
  let s1 := snd (startup env init_state) in
  let s2 := snd (MountSubvol env ex_cfg s1) in
  let s3 := snd (GetSnapshots ex_lib env ex_cfg s2) in
  let snaps := map (fun n => fst (ex_Unmarshal n)) ["7"; "2"; "abc"] in
  let s4 := snd (RunUI cursor_list env snaps s3) in
  exists evs,
    main ex_lib cursor_list env init_state = (Val tt, logged s4 evs)
    /\ free_of is_fatal evs
    /\ exit_status (fst (main ex_lib cursor_list env init_state)) = 0%Z.
Proof.
  intros env s1 s2 s3 snaps s4.
  apply (main_ignores_rollback_result ex_lib cursor_list env init_state
           s1 s2 s3 s4 ex_cfg snaps "7"); vm_compute; reflexivity.
Defined.

(** ** The confirmation *)

(** X16.  [Confirm] always returns and runs no command.  It reads the
    standard input only after the terminal went into raw mode; and whenever
    it did go into raw mode, the terminal is restored, as the last thing
    [Confirm] does, after the echo of the key.  An answer of true is only
    given in that case. *)
Theorem Confirm_restores_terminal (env : Env) (prompt : string) (s : State) :
  exists b evs,
    Confirm env prompt s = (Val b, logged s evs)
    /\ free_of is_command_event evs
    /\ (In EvRestore evs <-> In (EvMakeRaw None) evs)
    /\ (In (EvMakeRaw None) evs -> exists before, evs = before ++ [EvRestore])
    /\ (forall key, In (EvStdinRead key) evs -> In (EvMakeRaw None) evs)
    /\ (b = true -> In EvRestore evs).
Proof.
  rewrite Confirm_spec. cbv zeta.
  set (raw := term_MakeRaw env _). set (key := stdin_Read env _).
  exists (affirmative raw key), (confirm_events prompt raw key).
  split; [reflexivity|].
  unfold confirm_events, affirmative. destruct raw as [e|]; cbn [app In].
  - split; [reflexivity|]. split; [|split; [|split]].
    + split; intros [H | [H | [H | []]]]; discriminate H.
    + intros [H | [H | [H | []]]]; discriminate H.
    + intros k [H | [H | [H | []]]]; discriminate H.
    + discriminate.
  - split; [reflexivity|]. split; [|split; [|split]].
    + split; intros _; auto 6.
    + intros _. eexists [_; _; _; _]. reflexivity.
    + intros k _. auto.
    + intros _. auto 6.
Qed.
